(** * TEIFValidator: a shallow embedding of [main.js]

    The validator walks a loosely typed invoice object, pushes one message
    per violated rule onto [this.errors] and returns a report.  The
    embedding keeps the three things the behaviour depends on:

    - the dynamic values of the document tree ([Value]), with the
      language's rules for property reads, truthiness, [typeof], strict
      equality against a string literal and string conversion;
    - abrupt completion: a property read on [null]/[undefined] or a call
      of something that is not a function raises a [TypeError];
    - the validator object [this], whose [errors] array is the only
      mutable state.

    Strings are sequences of 8-bit characters; the pattern, the codes and
    the fixed parts of the messages are ASCII. *)

From Stdlib Require Import ZArith String Ascii List Bool Arith Lia.
From Stdlib Require Import Floats.SpecFloat.
From Stdlib Require Import DecimalString DecimalNat.
Import ListNotations.

Set Warnings "-register-all".

Local Open Scope list_scope.
Local Open Scope string_scope.

(** ** Numbers *)

(** A Number is an IEEE 754 binary64 value: signed zeros, signed
    infinities, NaN and the finite values [(-1)^s * m * 2^e]. *)
Definition number : Type := spec_float.

Definition NaN : number := S754_nan.
Definition zero : number := S754_zero false.

(** The Number denoted by an integer literal such as [2], [-5] or
    [1200.0]. *)
Definition num (z : Z) : number := binary_normalize 53 1024 z 0 false.

(** ** Values *)

Inductive Value : Type :=
| JUndefined
| JNull
| JBool (b : bool)
| JNumber (n : number)
| JString (s : string)
| JArray (elems : list Value)
| JObject (props : list (string * Value)).

(** [typeof v] *)
Definition typeof (v : Value) : string :=
  match v with
  | JUndefined => "undefined"
  | JNull => "object"
  | JBool _ => "boolean"
  | JNumber _ => "number"
  | JString _ => "string"
  | JArray _ => "object"
  | JObject _ => "object"
  end.

(** ToBoolean: [undefined], [null], [false], [+0], [-0], [NaN] and the
    empty string are falsy, everything else is truthy. *)
Definition truthy (v : Value) : bool :=
  match v with
  | JUndefined => false
  | JNull => false
  | JBool b => b
  | JNumber (S754_zero _) => false
  | JNumber S754_nan => false
  | JNumber _ => true
  | JString s => negb (s =? "")
  | JArray _ => true
  | JObject _ => true
  end.

(** [v === 'lit']: only a string with the same characters is strictly
    equal to a string literal. *)
Definition strictEq (v : Value) (lit : string) : bool :=
  match v with
  | JString s => s =? lit
  | _ => false
  end.

Definition nullish (v : Value) : bool :=
  match v with
  | JUndefined | JNull => true
  | _ => false
  end.

(** [Array.isArray(v)] *)
Definition isArray (v : Value) : bool :=
  match v with
  | JArray _ => true
  | _ => false
  end.

(** [x <= 0] and [x < 0] on Numbers; both are false when [x] is NaN. *)
Definition le_zero (x : number) : bool := SFleb x zero.
Definition lt_zero (x : number) : bool := SFltb x zero.

(** ** Abrupt completion *)

Inductive Exception : Type := TypeError.

Inductive Completion (A : Type) : Type :=
| Normal (a : A)
| Throw (e : Exception).
Arguments Normal {A} a.
Arguments Throw {A} e.

Definition bindC {A B} (c : Completion A) (k : A -> Completion B) : Completion B :=
  match c with
  | Normal a => k a
  | Throw e => Throw e
  end.

Notation "x <~ c1 ;; c2" := (bindC c1 (fun x => c2))
  (at level 61, c1 at next level, right associativity).

(** ** Property reads *)

(** A property key as the source writes it: an identifier name after a
    dot, or the computed index of [LinSection?.[0]]. *)
Inductive Key : Type :=
| Name (s : string)
| Index (i : nat).

Definition decimal (n : nat) : string := NilEmpty.string_of_uint (Nat.to_uint n).

Definition keyString (k : Key) : string :=
  match k with
  | Name s => s
  | Index i => decimal i
  end.

Fixpoint lookup (k : string) (props : list (string * Value)) : Value :=
  match props with
  | [] => JUndefined
  | (k', v) :: rest => if k =? k' then v else lookup k rest
  end.

(** Whether the object has an own property [k]. *)
Definition hasOwn (k : string) (props : list (string * Value)) : bool :=
  existsb (fun p => k =? fst p) props.

Definition charAt (s : string) (i : nat) : Value :=
  match String.get i s with
  | Some c => JString (String c EmptyString)
  | None => JUndefined
  end.

(** The value of [v[k]] for a [v] that is neither [null] nor [undefined].
    Objects hold the document's own data properties.  Arrays and strings
    answer [length] and their indices; the names the validator reads as
    values are document field names, which no built-in prototype defines,
    so every other read on an array or a primitive gives [undefined]
    (methods are reached through [callFind] and [callForEach] below). *)
Definition getOwn (v : Value) (k : Key) : Value :=
  match v with
  | JObject props => lookup (keyString k) props
  | JArray elems =>
      match k with
      | Index i => nth i elems JUndefined
      | Name s => if s =? "length" then JNumber (num (Z.of_nat (length elems)))
                  else JUndefined
      end
  | JString str =>
      match k with
      | Index i => charAt str i
      | Name s => if s =? "length" then JNumber (num (Z.of_nat (String.length str)))
                  else JUndefined
      end
  | _ => JUndefined
  end.

(** [v.k]: a TypeError on [null] and [undefined]. *)
Definition get (v : Value) (k : Key) : Completion Value :=
  if nullish v then Throw TypeError else Normal (getOwn v k).

(** [v?.k]: [undefined] on [null] and [undefined]. *)
Definition getOpt (v : Value) (k : Key) : Value :=
  if nullish v then JUndefined else getOwn v k.

Coercion Name : string >-> Key.

(** ** Array methods *)

(** [Array.prototype.find]: the first element on which the callback
    answers true, [undefined] when there is none; a callback that throws
    ends the scan. *)
Fixpoint arrayFind (cb : Value -> Completion bool) (elems : list Value)
  : Completion Value :=
  match elems with
  | [] => Normal JUndefined
  | x :: rest =>
      b <~ cb x ;;
      if b then Normal x else arrayFind cb rest
  end.

(** [v.find(cb)].  Only arrays have a [find] method: on an object the
    read gives [undefined] or a data value, on a primitive [undefined],
    and calling either is a TypeError, as is the read on [null] and
    [undefined]. *)
Definition callFind (v : Value) (cb : Value -> Completion bool) : Completion Value :=
  match v with
  | JArray elems => arrayFind cb elems
  | _ => Throw TypeError
  end.

(** [v?.find(cb)]: the whole call is skipped on [null] and [undefined]. *)
Definition callFindOpt (v : Value) (cb : Value -> Completion bool) : Completion Value :=
  if nullish v then Normal JUndefined else callFind v cb.

(** ** Regular expressions *)

(** The fragment of the pattern language that [taxIdRegex] uses: the two
    anchors and a character class repeated a fixed number of times. *)
Inductive CharClass : Type :=
| Digit            (* \d *)
| Upper            (* [A-Z] *)
| Literal (c : ascii).

Inductive Term : Type :=
| AssertStart      (* ^ *)
| AssertEnd        (* $ *)
| Repeat (c : CharClass) (n : nat).

Definition RegExp : Type := list Term.

Definition inRange (lo hi : ascii) (c : ascii) : bool :=
  ((nat_of_ascii lo <=? nat_of_ascii c) && (nat_of_ascii c <=? nat_of_ascii hi))%nat.

Definition classMatches (cl : CharClass) (c : ascii) : bool :=
  match cl with
  | Digit => inRange "0" "9" c
  | Upper => inRange "A" "Z" c
  | Literal l => Ascii.eqb c l
  end.

(** Consume exactly [n] characters of the class. *)
Fixpoint matchRepeat (cl : CharClass) (n : nat) (s : string) : option string :=
  match n with
  | O => Some s
  | S n' =>
      match s with
      | EmptyString => None
      | String c rest => if classMatches cl c then matchRepeat cl n' rest else None
      end
  end.

(** Match the terms at the current position; [pos] is the number of
    characters before it.  Without the [m] flag [^] holds only at
    position 0 and [$] only at the end of the input. *)
Fixpoint matchHere (r : RegExp) (pos : nat) (s : string) : bool :=
  match r with
  | [] => true
  | AssertStart :: r' => (pos =? 0)%nat && matchHere r' pos s
  | AssertEnd :: r' =>
      match s with
      | EmptyString => matchHere r' pos s
      | String _ _ => false
      end
  | Repeat cl n :: r' =>
      match matchRepeat cl n s with
      | Some rest => matchHere r' (pos + n) rest
      | None => false
      end
  end.

(** Try every start position from the left. *)
Fixpoint searchFrom (r : RegExp) (pos : nat) (s : string) : bool :=
  matchHere r pos s ||
  match s with
  | EmptyString => false
  | String _ rest => searchFrom r (S pos) rest
  end.

(** [re.test(str)] for a pattern without the [g] or [y] flag: the search
    starts at position 0 and leaves the pattern object unchanged. *)
Definition test (r : RegExp) (str : string) : bool := searchFrom r 0 str.

(** [/^\d{7}[A-Z]\/[A-Z]\/[A-Z]\/\d{3}$/] *)
Definition taxIdRegex : RegExp :=
  [ AssertStart;
    Repeat Digit 7; Repeat Upper 1;
    Repeat (Literal "/") 1; Repeat Upper 1;
    Repeat (Literal "/") 1; Repeat Upper 1;
    Repeat (Literal "/") 1; Repeat Digit 3;
    AssertEnd ].

(** ** String conversion *)

(** The engine's Number-to-string conversion.  The validator reaches it
    only when an identifier value is a Number; its digits are the
    engine's business, so the development is parametric in it. *)
Class Engine : Type := { NumberToString : number -> string }.

Section StringConversion.
Context {engine : Engine}.

(** ToString on document values.  An array joins its elements with
    commas, [null] and [undefined] elements giving the empty string.  A
    plain object gives ["[object Object]"] through the inherited
    [toString]; when the object has an own [toString] property, a data
    value that cannot be called, the inherited [valueOf] answers the
    object itself and the conversion is a TypeError. *)
Fixpoint ToString (v : Value) : Completion string :=
  match v with
  | JUndefined => Normal "undefined"
  | JNull => Normal "null"
  | JBool true => Normal "true"
  | JBool false => Normal "false"
  | JNumber n => Normal (NumberToString n)
  | JString s => Normal s
  | JArray elems =>
      (fix join (l : list Value) : Completion string :=
         match l with
         | [] => Normal ""
         | x :: rest =>
             sx <~ (if nullish x then Normal "" else ToString x) ;;
             match rest with
             | [] => Normal sx
             | _ :: _ => tail <~ join rest ;; Normal (sx ++ "," ++ tail)
             end
         end) elems
  | JObject props =>
      if hasOwn "toString" props then Throw TypeError else Normal "[object Object]"
  end.

(** [re.test(v)]: the argument is converted to a string first. *)
Definition regexTest (re : RegExp) (v : Value) : Completion bool :=
  str <~ ToString v ;; Normal (test re str).
End StringConversion.

(** * The validator *)

(** ** The object and its methods' monad *)

(** [this]: the document given to the constructor and the error array.
    The constructor's other two fields never change: [taxIdRegex] is the
    constant above and [knownCodes] is not read by any method. *)
Record TEIFValidator : Type := {
  invoice : Value;
  errors : list string
}.

(** [new TEIFValidator(invoiceData)] *)
Definition new_TEIFValidator (invoiceData : Value) : TEIFValidator :=
  {| invoice := invoiceData; errors := [] |}.

Definition knownCodes : list (string * list string) :=
  [ ("partnerFunctions", ["I-61"; "I-62"]);
    ("documentTypes", ["I-11"]);
    ("dateFunctions", ["I-31"]);
    ("amountTypes", ["I-176"; "I-181"; "I-180"; "I-171"; "I-183"]);
    ("taxTypes", ["I-1602"]) ].

(** A method body: it runs on [this], may change it, and completes
    normally with a result or abruptly with an exception. *)
Definition M (A : Type) : Type := TEIFValidator -> Completion A * TEIFValidator.

Definition ret {A} (a : A) : M A := fun this => (Normal a, this).

Definition bind {A B} (m : M A) (k : A -> M B) : M B :=
  fun this =>
    match m this with
    | (Normal a, this') => k a this'
    | (Throw e, this') => (Throw e, this')
    end.

Definition lift {A} (c : Completion A) : M A := fun this => (c, this).

Notation "x <- c1 ;; c2" := (bind c1 (fun x => c2))
  (at level 61, c1 at next level, right associativity).
Notation "c1 ;; c2" := (bind c1 (fun _ => c2))
  (at level 61, right associativity).

(** [this.invoice] *)
Definition thisInvoice : M Value := fun this => (Normal (invoice this), this).

(** [this.errors] *)
Definition thisErrors : M (list string) := fun this => (Normal (errors this), this).

(** [this.errors = []]: a new array; the one an earlier report holds is
    left alone. *)
Definition resetErrors : M unit :=
  fun this => (Normal tt, {| invoice := invoice this; errors := [] |}).

(** [if (c) { m }] *)
Definition when (c : bool) (m : M unit) : M unit := if c then m else ret tt.

(** [!a || b], with [b] evaluated only when [a] is truthy. *)
Definition notOr (a : Value) (b : Completion bool) : Completion bool :=
  if negb (truthy a) then Normal true else b.

(** [typeof v !== 'number' || cmp(v)], where [cmp] is a comparison of the
    Number [v] with zero. *)
Definition notNumberOr (cmp : number -> bool) (v : Value) : bool :=
  match v with
  | JNumber n => cmp n
  | _ => negb (typeof v =? "number")
  end.

(** The length of an array, a non-negative integer. *)
Definition arrayLength (v : Value) : nat :=
  match v with
  | JArray elems => length elems
  | _ => 0
  end.

(** [Array.prototype.forEach] with a callback that runs on [this]; the
    second argument of the callback is the element's index. *)
Fixpoint forEachFrom (cb : Value -> nat -> M unit) (elems : list Value) (index : nat)
  : M unit :=
  match elems with
  | [] => ret tt
  | x :: rest => cb x index ;; forEachFrom cb rest (S index)
  end.

Definition callForEach (v : Value) (cb : Value -> nat -> M unit) : M unit :=
  match v with
  | JArray elems => forEachFrom cb elems 0
  | _ => lift (Throw TypeError)
  end.

Definition _addError (message : string) : M unit :=
  fun this =>
    (Normal tt, {| invoice := invoice this; errors := (errors this ++ [message])%list |}).

(** ** The messages *)

Module Msg.
Definition version := "Root: TEIF version must be '2.0'.".
Definition agency := "Root: 'controlingAgency' must be 'TTN'.".
Definition headerMissing := "Structure: 'InvoiceHeader' object is missing.".
Definition senderMissing := "Header: Sender 'MessageSenderIdentifier' is missing or empty.".
Definition senderFormat (value : string) :=
  "Header: Sender Tax ID '" ++ value ++ "' has an invalid format.".
Definition receiverMissing := "Header: Receiver 'MessageReceiverIdentifier' is missing or empty.".
Definition receiverFormat (value : string) :=
  "Header: Receiver Tax ID '" ++ value ++ "' has an invalid format.".
Definition documentIdentifier := "Body: 'Bgm.DocumentIdentifier' (Invoice ID) is missing.".
Definition documentType := "Body: 'Bgm.DocumentType.code' must be 'I-11' for an invoice.".
Definition issueDate := "Body: 'Dtm' entry with functionCode 'I-31' (Issue Date) is missing.".
Definition partners :=
  "Partners: 'PartnerSection.PartnerDetails' must be an array with at least a supplier and a buyer.".
Definition supplierRequired := "Partners: A supplier with functionCode 'I-62' is required.".
Definition supplierIncomplete := "Partners: Supplier is missing 'PartnerIdentifier' or 'PartnerNom'.".
Definition buyerRequired := "Partners: A buyer with functionCode 'I-61' is required.".
Definition buyerIncomplete := "Partners: Buyer is missing 'PartnerIdentifier' or 'PartnerNom'.".
Definition lines := "Lines: 'LinSection[0].Lin' must be an array with at least one line item.".
Definition lineItem (position : nat) :=
  "Line " ++ decimal position ++ ": 'ItemIdentifier' or 'Description' is missing.".
Definition lineQuantity (position : nat) :=
  "Line " ++ decimal position ++ ": 'Quantity' must be a positive number.".
Definition lineUnitPrice (position : nat) :=
  "Line " ++ decimal position ++ ": 'UnitPrice' must be a non-negative number.".
Definition amounts := "Totals: 'InvoiceMoa.AmountDetails' array is missing.".
Definition totalHT := "Totals: Amount with type 'I-176' (Total HT) is missing.".
Definition totalTTC := "Totals: Amount with type 'I-180' (Total TTC) is missing.".
Definition taxMissing := "Tax: 'InvoiceTax' object is missing.".
Definition taxType := "Tax: 'TaxTypeCode' for main tax should be 'I-1602' (TVA).".
End Msg.

(** ** The rule groups *)

Definition _validateRoot : M unit :=
  this_invoice <- thisInvoice ;;
  version <- lift (get this_invoice "version") ;;
  when (negb (strictEq version "2.0")) (_addError Msg.version) ;;
  this_invoice <- thisInvoice ;;
  agency <- lift (get this_invoice "controlingAgency") ;;
  when (negb (strictEq agency "TTN")) (_addError Msg.agency).

Section Header.
Context {engine : Engine}.

Definition _validateHeader : M unit :=
  this_invoice <- thisInvoice ;;
  header <- lift (get this_invoice "InvoiceHeader") ;;
  if negb (truthy header) then
    _addError Msg.headerMissing
  else
    sender <- lift (get header "MessageSenderIdentifier") ;;
    senderAbsent <- lift (notOr sender (v <~ get sender "value" ;; Normal (negb (truthy v)))) ;;
    (if senderAbsent then
       _addError Msg.senderMissing
     else
       value <- lift (get sender "value") ;;
       matches <- lift (regexTest taxIdRegex value) ;;
       when (negb matches)
            (value <- lift (get sender "value") ;;
             str <- lift (ToString value) ;;
             _addError (Msg.senderFormat str))) ;;
    receiver <- lift (get header "MessageReceiverIdentifier") ;;
    receiverAbsent <- lift (notOr receiver (v <~ get receiver "value" ;; Normal (negb (truthy v)))) ;;
    (if receiverAbsent then
       _addError Msg.receiverMissing
     else
       value <- lift (get receiver "value") ;;
       matches <- lift (regexTest taxIdRegex value) ;;
       when (negb matches)
            (value <- lift (get receiver "value") ;;
             str <- lift (ToString value) ;;
             _addError (Msg.receiverFormat str))).

End Header.

Definition _validateBgmAndDtm : M unit :=
  this_invoice <- thisInvoice ;;
  bgm <- lift (get this_invoice "Bgm") ;;
  idAbsent <- lift (notOr bgm (d <~ get bgm "DocumentIdentifier" ;; Normal (negb (truthy d)))) ;;
  when idAbsent (_addError Msg.documentIdentifier) ;;
  bgm <- lift (get this_invoice "Bgm") ;;
  when (negb (strictEq (getOpt (getOpt bgm "DocumentType") "code") "I-11"))
       (_addError Msg.documentType) ;;
  dtm <- lift (get this_invoice "Dtm") ;;
  issueDate <- lift (callFindOpt dtm
                       (fun d => f <~ get d "functionCode" ;; Normal (strictEq f "I-31"))) ;;
  when (negb (truthy issueDate)) (_addError Msg.issueDate).

(** [!p.Nad?.PartnerIdentifier?.value || !p.Nad?.PartnerNom?.value] *)
Definition partnerIncomplete (p : Value) : Completion bool :=
  nad <~ get p "Nad" ;;
  notOr (getOpt (getOpt nad "PartnerIdentifier") "value")
        (nad <~ get p "Nad" ;;
         Normal (negb (truthy (getOpt (getOpt nad "PartnerNom") "value")))).

Definition _validatePartners : M unit :=
  this_invoice <- thisInvoice ;;
  section <- lift (get this_invoice "PartnerSection") ;;
  let partners := getOpt section "PartnerDetails" in
  if negb (truthy partners) || negb (isArray partners) || (arrayLength partners <? 2)%nat then
    _addError Msg.partners
  else
    supplier <- lift (callFind partners
                        (fun p => f <~ get p "functionCode" ;; Normal (strictEq f "I-62"))) ;;
    (if negb (truthy supplier) then
       _addError Msg.supplierRequired
     else
       incomplete <- lift (partnerIncomplete supplier) ;;
       when incomplete (_addError Msg.supplierIncomplete)) ;;
    buyer <- lift (callFind partners
                     (fun p => f <~ get p "functionCode" ;; Normal (strictEq f "I-61"))) ;;
    (if negb (truthy buyer) then
       _addError Msg.buyerRequired
     else
       incomplete <- lift (partnerIncomplete buyer) ;;
       when incomplete (_addError Msg.buyerIncomplete)).

(** The callback of [lines.forEach]. *)
Definition lineCallback (line : Value) (index : nat) : M unit :=
  item <- lift (get line "ItemIdentifier") ;;
  itemAbsent <- lift (notOr item (d <~ get line "Description" ;; Normal (negb (truthy d)))) ;;
  when itemAbsent (_addError (Msg.lineItem (index + 1))) ;;
  quantity <- lift (get line "Quantity") ;;
  when (notNumberOr le_zero quantity) (_addError (Msg.lineQuantity (index + 1))) ;;
  unitPrice <- lift (get line "UnitPrice") ;;
  when (notNumberOr lt_zero unitPrice) (_addError (Msg.lineUnitPrice (index + 1))).

Definition _validateLines : M unit :=
  this_invoice <- thisInvoice ;;
  sections <- lift (get this_invoice "LinSection") ;;
  let lines := getOpt (getOpt sections (Index 0)) "Lin" in
  if negb (truthy lines) || negb (isArray lines) || (arrayLength lines =? 0)%nat then
    _addError Msg.lines
  else
    callForEach lines lineCallback.

Definition _validateTotals : M unit :=
  this_invoice <- thisInvoice ;;
  moa <- lift (get this_invoice "InvoiceMoa") ;;
  let amounts := getOpt moa "AmountDetails" in
  if negb (truthy amounts) || negb (isArray amounts) then
    _addError Msg.amounts
  else
    totalHT <- lift (callFind amounts
                       (fun a => c <~ get a "amountTypeCode" ;; Normal (strictEq c "I-176"))) ;;
    when (negb (truthy totalHT)) (_addError Msg.totalHT) ;;
    totalTTC <- lift (callFind amounts
                        (fun a => c <~ get a "amountTypeCode" ;; Normal (strictEq c "I-180"))) ;;
    when (negb (truthy totalTTC)) (_addError Msg.totalTTC) ;;
    this_invoice <- thisInvoice ;;
    taxInfo <- lift (get this_invoice "InvoiceTax") ;;
    if negb (truthy taxInfo) then
      _addError Msg.taxMissing
    else
      taxTypeCode <- lift (get taxInfo "TaxTypeCode") ;;
      when (negb (strictEq taxTypeCode "I-1602")) (_addError Msg.taxType).

(** ** The report and [validate] *)

Module Report.
Record t : Type := { isValid : bool; errors : list string }.
End Report.

Section Validate.
Context {engine : Engine}.

Definition validate : M Report.t :=
  resetErrors ;;
  _validateRoot ;;
  _validateHeader ;;
  _validateBgmAndDtm ;;
  _validatePartners ;;
  _validateLines ;;
  _validateTotals ;;
  errs <- thisErrors ;;
  ret {| Report.isValid := (length errs =? 0)%nat; Report.errors := errs |}.

End Validate.

(** ** The example document of the source *)

Definition partyId (value : string) : Value :=
  JObject [("type", JString "I-01"); ("value", JString value)].

Definition partnerEntry (functionCode id name city : string) : Value :=
  JObject
    [ ("functionCode", JString functionCode);
      ("Nad", JObject
         [ ("PartnerIdentifier", partyId id);
           ("PartnerNom", JObject [("value", JString name)]);
           ("PartnerAdresses",
            JArray [JObject [("CityName", JString city); ("Country", JString "TN")]]) ]) ].

Definition lineEntry (id description : string) (quantity unitPrice lineTotal : Z) : Value :=
  JObject
    [ ("ItemIdentifier", JString id);
      ("Description", JString description);
      ("Quantity", JNumber (num quantity));
      ("UnitPrice", JNumber (num unitPrice));
      ("LineTotal", JNumber (num lineTotal)) ].

Definition supplierEntry : Value :=
  partnerEntry "I-62" "1234567A/B/M/000" "Tech Solutions SARL" "Tunis".

Definition buyerEntry : Value :=
  partnerEntry "I-61" "7654321C/D/N/000" "Alpha Distribution SA" "Sfax".

(** The example document with its header, partner collection, line
    collection and top-level totals and tax fields left open, so that
    variants of it can be written down. *)
Definition invoiceWith (header : Value) (partners : list Value) (lines : list Value)
           (totals : list (string * Value)) : Value :=
  JObject
    ([ ("version", JString "2.0");
       ("controlingAgency", JString "TTN");
       ("InvoiceHeader", header);
       ("Bgm", JObject
          [ ("DocumentIdentifier", JString "INV-2025-001");
            ("DocumentType", JObject [("code", JString "I-11"); ("name", JString "Facture")]) ]);
       ("Dtm", JArray
          [ JObject [ ("functionCode", JString "I-31");
                      ("format", JString "DDMMYY");
                      ("DateText", JString "190825") ] ]);
       ("PartnerSection", JObject [("PartnerDetails", JArray partners)]);
       ("LinSection", JArray [JObject [("Lin", JArray lines)]]) ] ++ totals)%list.

Definition validHeader : Value :=
  JObject
    [ ("MessageSenderIdentifier", partyId "1234567A/B/M/000");
      ("MessageReceiverIdentifier", partyId "7654321C/D/N/000") ].

Definition validLines : list Value :=
  [ lineEntry "PRD-001" "Laptop" 2 1200 2400;
    lineEntry "PRD-002" "Printer" 1 600 600 ].

Definition validTotals : list (string * Value) :=
  [ ("InvoiceMoa", JObject
       [ ("AmountDetails", JArray
            [ JObject [("amountTypeCode", JString "I-176"); ("Amount", JNumber (num 3000))];
              JObject [("amountTypeCode", JString "I-180"); ("Amount", JNumber (num 3570))] ]) ]);
    ("InvoiceTax", JObject
       [ ("TaxTypeCode", JString "I-1602");
         ("TaxRate", JNumber (num 19));
         ("TaxAmount", JNumber (num 570)) ]) ].

Definition validInvoiceData : Value :=
  invoiceWith validHeader [supplierEntry; buyerEntry] validLines validTotals.

(** Variants of the example document used below. *)

(** The empty document [{}]. *)
Definition emptyDocument : Value := JObject [].

(** What [validate] reports on the empty document. *)
Definition emptyDocumentErrors : list string :=
  [ Msg.version; Msg.agency; Msg.headerMissing; Msg.documentIdentifier;
    Msg.documentType; Msg.issueDate; Msg.partners; Msg.lines; Msg.amounts ].

(** [{ Dtm: {} }]: the date entries are an object, not an array. *)
Definition dtmObjectDocument : Value := JObject [("Dtm", JObject [])].

(** The example document with the buyer entry removed. *)
Definition supplierOnlyInvoice : Value :=
  invoiceWith validHeader [supplierEntry] validLines validTotals.

(** The header of [badSenderInvoice]. *)
Definition badSenderHeader : Value :=
  JObject [ ("MessageSenderIdentifier", partyId "BADID");
            ("MessageReceiverIdentifier", partyId "7654321C/D/N/000") ].

(** The example document with the sender identifier ["BADID"]. *)
Definition badSenderInvoice : Value :=
  invoiceWith badSenderHeader [supplierEntry; buyerEntry] validLines validTotals.

(** A line whose quantity and unit price are NaN. *)
Definition nanLine : Value :=
  JObject
    [ ("ItemIdentifier", JString "PRD-003");
      ("Description", JString "Cable");
      ("Quantity", JNumber NaN);
      ("UnitPrice", JNumber NaN) ].

(** The second line of the example with [UnitPrice = -5]. *)
Definition negativePriceItem : Value := lineEntry "PRD-002" "Printer" 1 (-5) 600.

(** The example document with another line collection. *)
Definition invoiceWithLines (lines : list Value) : Value :=
  invoiceWith validHeader [supplierEntry; buyerEntry] lines validTotals.

(** * Vocabulary of the properties *)

(** ** What a method records *)

(** The completion of a method, and the messages it records, when it runs
    on a validator for [doc] whose error array is empty. *)
Definition outcome {A} (m : M A) (doc : Value) : Completion A :=
  fst (m (new_TEIFValidator doc)).

Definition recorded {A} (m : M A) (doc : Value) : list string :=
  errors (snd (m (new_TEIFValidator doc))).

(** A method that reads the document, leaves it in place and only pushes
    messages satisfying [P]: on any [this] it completes as on a fresh
    validator for the same document and appends the same messages. *)
Definition emits {A} (P : string -> Prop) (m : M A) : Prop :=
  forall this,
    m this = (outcome m (invoice this),
              {| invoice := invoice this;
                 errors := (errors this ++ recorded m (invoice this))%list |})
    /\ Forall P (recorded m (invoice this)).

Fixpoint startsWith (p s : string) : bool :=
  match p, s with
  | EmptyString, _ => true
  | String a p', String b s' => Ascii.eqb a b && startsWith p' s'
  | String _ _, EmptyString => false
  end.

(** A message that begins with one of the given tags. *)
Definition tagged (tags : list string) (message : string) : Prop :=
  existsb (fun t => startsWith t message) tags = true.

(** The tags of all messages. *)
Definition groupTags : list string :=
  ["Root: "; "Structure: "; "Header: "; "Body: "; "Partners: "; "Lines: "; "Line ";
   "Totals: "; "Tax: "].

(** The six rule groups in the order [validate] calls them. *)
Definition runGroups {engine : Engine} : M unit :=
  _validateRoot ;;
  _validateHeader ;;
  _validateBgmAndDtm ;;
  _validatePartners ;;
  _validateLines ;;
  _validateTotals.

(** The report [validate] builds from the error array. *)
Definition reportOf (errs : list string) : Report.t :=
  {| Report.isValid := (length errs =? 0)%nat; Report.errors := errs |}.

(** The validator after [n] calls of [validate], whatever their
    completions were. *)
Fixpoint afterCalls {engine : Engine} (n : nat) (this : TEIFValidator) : TEIFValidator :=
  match n with
  | O => this
  | S n' => afterCalls n' (snd (validate this))
  end.

(** ** The identifier format, in the words of the specification *)

Definition digits : list ascii := list_ascii_of_string "0123456789".
Definition uppercaseLetters : list ascii :=
  list_ascii_of_string "ABCDEFGHIJKLMNOPQRSTUVWXYZ".

(** Exactly 7 digits, one uppercase letter, a slash, one uppercase
    letter, a slash, one uppercase letter, a slash, 3 digits. *)
Definition TaxIdFormat (s : string) : Prop :=
  exists (d : list ascii) (a b c : ascii) (e : list ascii),
    s = string_of_list_ascii (d ++ [a; "/"; b; "/"; c; "/"] ++ e)%list%char
    /\ length d = 7 /\ Forall (fun x => In x digits) d
    /\ In a uppercaseLetters /\ In b uppercaseLetters /\ In c uppercaseLetters
    /\ length e = 3 /\ Forall (fun x => In x digits) e.

(** The check of one party identifier of the header: how it completes
    and what it records.  A missing or empty identifier is one violation;
    otherwise the value is converted to a string, which may throw, and a
    string that the pattern rejects is one violation naming it. *)
Definition partyCheck {engine : Engine} (party : Value) (missing : string)
           (format : string -> string) : Completion unit * list string :=
  if negb (truthy party) || negb (truthy (getOwn party "value")) then (Normal tt, [missing])
  else match ToString (getOwn party "value") with
       | Normal str => (Normal tt, if test taxIdRegex str then [] else [format str])
       | Throw e => (Throw e, [])
       end.

(** ** Line items, in the words of the specification *)

(** A Number that is zero or below: a zero of either sign, a negative
    finite value or negative infinity.  NaN is neither. *)
Definition nonPositive (n : number) : bool :=
  match n with
  | S754_zero _ => true
  | S754_infinity s => s
  | S754_nan => false
  | S754_finite s _ _ => s
  end.

Definition negative (n : number) : bool :=
  match n with
  | S754_zero _ => false
  | S754_infinity s => s
  | S754_nan => false
  | S754_finite s _ _ => s
  end.

(** (a) the item identifier or the description is missing *)
Definition itemMissing (line : Value) : bool :=
  negb (truthy (getOwn line "ItemIdentifier")) || negb (truthy (getOwn line "Description")).

(** (b) the quantity is not a number or is at most zero *)
Definition quantityInvalid (line : Value) : bool :=
  match getOwn line "Quantity" with
  | JNumber n => nonPositive n
  | _ => true
  end.

(** (c) the unit price is not a number or is negative *)
Definition unitPriceInvalid (line : Value) : bool :=
  match getOwn line "UnitPrice" with
  | JNumber n => negative n
  | _ => true
  end.

(** The violations of one line, each naming the line's position. *)
Definition lineViolations (position : nat) (line : Value) : list string :=
  ((if itemMissing line then [Msg.lineItem position] else []) ++
   (if quantityInvalid line then [Msg.lineQuantity position] else []) ++
   (if unitPriceInvalid line then [Msg.lineUnitPrice position] else []))%list.

(** The violations of the lines from 0-based [index] on, line after line. *)
Fixpoint violationsFrom (index : nat) (lines : list Value) : list string :=
  match lines with
  | [] => []
  | line :: rest => (lineViolations (index + 1) line ++ violationsFrom (S index) rest)%list
  end.

(** The lines in front of the first entry that is [null] or [undefined]. *)
Fixpoint readable (lines : list Value) : list Value :=
  match lines with
  | [] => []
  | line :: rest => if nullish line then [] else line :: readable rest
  end.

(** A line that violates none of the three rules. *)
Definition validLine (line : Value) : Prop :=
  nullish line = false /\ itemMissing line = false
  /\ quantityInvalid line = false /\ unitPriceInvalid line = false.


(** ** An engine for the closed examples *)

(** The integer that a finite Number [m * 2^e] denotes, if it is one. *)
Definition integerOf (m : positive) (e : Z) : option Z :=
  if (0 <=? e)%Z then Some (Zpos m * 2 ^ e)%Z
  else if (Zpos m mod 2 ^ (- e) =? 0)%Z then Some (Zpos m / 2 ^ (- e))%Z
       else None.

(** None of the closed examples converts a Number to a string: every
    identifier in them is a string.  This conversion prints NaN, the
    infinities, the zeros and the integers below [10^21] as the language
    does, and answers the empty string elsewhere. *)
Definition sampleNumberToString (n : number) : string :=
  match n with
  | S754_nan => "NaN"
  | S754_infinity s => if s then "-Infinity" else "Infinity"
  | S754_zero _ => "0"
  | S754_finite s m e =>
      match integerOf m e with
      | Some z =>
          if (z <? 10 ^ 21)%Z then (if s then "-" else "") ++ decimal (Z.to_nat z)
          else ""
      | None => ""
      end
  end.

Definition sampleEngine : Engine := {| NumberToString := sampleNumberToString |}.

(** ** Searching a collection by code *)

(** The callback of the [find] calls: [entry => entry[key] === code]. *)
Definition codeIs (key code : string) (entry : Value) : Completion bool :=
  f <~ get entry key ;; Normal (strictEq f code).

Definition hasCode (key code : string) (entry : Value) : bool :=
  strictEq (getOwn entry key) code.

(** An entry the scan reads and passes over. *)
Definition passedOver (key code : string) (entry : Value) : Prop :=
  nullish entry = false /\ hasCode key code entry = false.

(** [entry] is the first entry with the code, and every entry in front of
    it can be read. *)
Definition firstWith (key code : string) (entries : list Value) (entry : Value) : Prop :=
  exists before after,
    entries = (before ++ entry :: after)%list
    /\ Forall (passedOver key code) before
    /\ nullish entry = false /\ hasCode key code entry = true.

(** No entry has the code, and every entry can be read. *)
Definition noneWith (key code : string) (entries : list Value) : Prop :=
  Forall (passedOver key code) entries.

(** The scan meets [null] or [undefined] before any entry with the code. *)
Definition faultsBefore (key code : string) (entries : list Value) : Prop :=
  exists before after entry,
    entries = (before ++ entry :: after)%list
    /\ Forall (passedOver key code) before
    /\ nullish entry = true.


(** ** What a conforming document looks like *)

(** A partner entry with a non-empty identifier value and a non-empty
    name value. *)
Definition partnerComplete (p : Value) : bool :=
  truthy (getOpt (getOpt (getOwn p "Nad") "PartnerIdentifier") "value")
  && truthy (getOpt (getOpt (getOwn p "Nad") "PartnerNom") "value").

(** The messages about one partner role, given what the search found. *)
Definition roleViolations (found : Value) (required incomplete : string) : list string :=
  if truthy found then (if partnerComplete found then [] else [incomplete])
  else [required].

(** The partner collection, the line collection and the amount
    collection of a document, as the groups read them. *)
Definition partnersOf (doc : Value) : Value :=
  getOpt (getOwn doc "PartnerSection") "PartnerDetails".

Definition linesOf (doc : Value) : Value :=
  getOpt (getOpt (getOwn doc "LinSection") (Index 0)) "Lin".

Definition amountsOf (doc : Value) : Value :=
  getOpt (getOwn doc "InvoiceMoa") "AmountDetails".

(** Whether a message begins with one of the tags. *)
Definition taggedb (tags : list string) (message : string) : bool :=
  existsb (fun t => startsWith t message) tags.

Section Conformance.
Context {engine : Engine}.

(** A party identifier that is present, with a non-empty value that
    converts to a string of the identifier format. *)
Definition partyConforms (party : Value) : Prop :=
  truthy party = true /\ truthy (getOwn party "value") = true
  /\ exists str, ToString (getOwn party "value") = Normal str /\ TaxIdFormat str.

Definition rootConforms (doc : Value) : Prop :=
  getOwn doc "version" = JString "2.0" /\ getOwn doc "controlingAgency" = JString "TTN".

Definition headerConforms (doc : Value) : Prop :=
  truthy (getOwn doc "InvoiceHeader") = true
  /\ partyConforms (getOwn (getOwn doc "InvoiceHeader") "MessageSenderIdentifier")
  /\ partyConforms (getOwn (getOwn doc "InvoiceHeader") "MessageReceiverIdentifier").

Definition bgmConforms (doc : Value) : Prop :=
  truthy (getOwn doc "Bgm") = true
  /\ truthy (getOwn (getOwn doc "Bgm") "DocumentIdentifier") = true
  /\ getOpt (getOpt (getOwn doc "Bgm") "DocumentType") "code" = JString "I-11"
  /\ exists entries issue,
       getOwn doc "Dtm" = JArray entries
       /\ firstWith "functionCode" "I-31" entries issue.

Definition partnersConform (doc : Value) : Prop :=
  exists entries supplier buyer,
    partnersOf doc = JArray entries /\ 2 <= length entries
    /\ firstWith "functionCode" "I-62" entries supplier /\ partnerComplete supplier = true
    /\ firstWith "functionCode" "I-61" entries buyer /\ partnerComplete buyer = true.

Definition linesConform (doc : Value) : Prop :=
  exists lines, linesOf doc = JArray lines /\ lines <> [] /\ Forall validLine lines.

Definition totalsConform (doc : Value) : Prop :=
  exists amounts totalHT totalTTC,
    amountsOf doc = JArray amounts
    /\ firstWith "amountTypeCode" "I-176" amounts totalHT
    /\ firstWith "amountTypeCode" "I-180" amounts totalTTC
    /\ truthy (getOwn doc "InvoiceTax") = true
    /\ getOwn (getOwn doc "InvoiceTax") "TaxTypeCode" = JString "I-1602".

(** A document on which every rule of the six groups holds. *)
Definition Conforms (doc : Value) : Prop :=
  nullish doc = false
  /\ rootConforms doc /\ headerConforms doc /\ bgmConforms doc
  /\ partnersConform doc /\ linesConform doc /\ totalsConform doc.

(** ** What makes [validate] return *)

(** A party identifier whose value, where the check converts it, converts
    to a string. *)
Definition partyConverts (party : Value) : Prop :=
  truthy party = true -> truthy (getOwn party "value") = true ->
  exists str, ToString (getOwn party "value") = Normal str.

(** A document on which no group meets a value it cannot read: the
    document is an object or a primitive, the identifier values convert,
    the date entries are absent or an array, and no search or loop over a
    collection meets [null] or [undefined]. *)
Definition FaultFree (doc : Value) : Prop :=
  nullish doc = false
  /\ (truthy (getOwn doc "InvoiceHeader") = true ->
      partyConverts (getOwn (getOwn doc "InvoiceHeader") "MessageSenderIdentifier")
      /\ partyConverts (getOwn (getOwn doc "InvoiceHeader") "MessageReceiverIdentifier"))
  /\ (nullish (getOwn doc "Dtm") = true
      \/ exists entries, getOwn doc "Dtm" = JArray entries
                         /\ ~ faultsBefore "functionCode" "I-31" entries)
  /\ (forall entries,
        partnersOf doc = JArray entries -> 2 <= length entries ->
        ~ faultsBefore "functionCode" "I-62" entries
        /\ ~ faultsBefore "functionCode" "I-61" entries)
  /\ (forall lines,
        linesOf doc = JArray lines -> Forall (fun line => nullish line = false) lines)
  /\ (forall amounts,
        amountsOf doc = JArray amounts ->
        ~ faultsBefore "amountTypeCode" "I-176" amounts
        /\ ~ faultsBefore "amountTypeCode" "I-180" amounts).

End Conformance.

(** The example document with a negative unit price in its second line,
    and the same lines in a document with a bad sender identifier, a
    lone supplier and no totals or tax. *)
Definition negativePriceInvoice : Value :=
  invoiceWithLines [lineEntry "PRD-001" "Laptop" 2 1200 2400; negativePriceItem].

Definition brokenElsewhereInvoice : Value :=
  invoiceWith badSenderHeader [supplierEntry]
    [lineEntry "PRD-001" "Laptop" 2 1200 2400; negativePriceItem] [].

(** A supplier entry without a name, and the example document with it in
    front of the example's two partner entries. *)
Definition namelessSupplier : Value :=
  JObject
    [ ("functionCode", JString "I-62");
      ("Nad", JObject [("PartnerIdentifier", partyId "1234567A/B/M/000")]) ].

Definition duplicateSupplierInvoice : Value :=
  invoiceWith validHeader [namelessSupplier; supplierEntry; buyerEntry] validLines validTotals.

(** The example document with [null] as the second of three lines. *)
Definition nullLineInvoice : Value :=
  invoiceWithLines [negativePriceItem; JNull; nanLine].


(** ** The two party identifiers of the header *)








(** * Properties *)

(** ** Methods only append to [this.errors] *)

Section Emits.
Context {A : Type} (P : string -> Prop).

Lemma emits_ret (a : A) : emits P (ret a).
Proof.
  intros [doc errs]; split; [|constructor].
  unfold ret, outcome, recorded; cbn. now rewrite app_nil_r.
Qed.

Lemma emits_lift (c : Completion A) : emits P (lift c).
Proof.
  intros [doc errs]; split; [|constructor].
  unfold lift, outcome, recorded; cbn. now rewrite app_nil_r.
Qed.

End Emits.

Lemma emits_thisInvoice P : emits P thisInvoice.
Proof.
  intros [doc errs]; split; [|constructor].
  unfold thisInvoice, outcome, recorded; cbn. now rewrite app_nil_r.
Qed.

Lemma emits_addError (P : string -> Prop) message :
  P message -> emits P (_addError message).
Proof.
  intros HP [doc errs]; split; [reflexivity|].
  unfold recorded; cbn. now constructor.
Qed.

(** A sequence on a fresh validator: the messages of the first part,
    then those of the second unless the first part threw. *)
Lemma bind_fresh {A B} (P : string -> Prop) (m : M A) (k : A -> M B) doc :
  emits P m -> (forall a, emits P (k a)) ->
  bind m k (new_TEIFValidator doc) =
  match outcome m doc with
  | Normal a => (outcome (k a) doc,
                 {| invoice := doc; errors := (recorded m doc ++ recorded (k a) doc)%list |})
  | Throw e => (Throw e, {| invoice := doc; errors := recorded m doc |})
  end.
Proof.
  intros Hm Hk. unfold bind.
  destruct (Hm (new_TEIFValidator doc)) as [E _]. cbn in E. rewrite E.
  destruct (outcome m doc) as [a|e]; [|reflexivity].
  destruct (Hk a {| invoice := doc; errors := recorded m doc |}) as [E' _].
  cbn in E'. exact E'.
Qed.

Lemma emits_bind {A B} P (m : M A) (k : A -> M B) :
  emits P m -> (forall a, emits P (k a)) -> emits P (bind m k).
Proof.
  intros Hm Hk this.
  unfold outcome, recorded. rewrite (bind_fresh P m k (invoice this) Hm Hk).
  unfold bind. destruct (Hm this) as [E Fm]. rewrite E.
  destruct (outcome m (invoice this)) as [a|e]; cbn.
  - destruct (Hk a {| invoice := invoice this;
                      errors := (errors this ++ recorded m (invoice this))%list |})
      as [E' Fk].
    cbn in E', Fk. rewrite E'. rewrite <- app_assoc. split; [reflexivity|].
    apply Forall_app; split; assumption.
  - split; [reflexivity | assumption].
Qed.

Lemma emits_when P c m : emits P m -> emits P (when c m).
Proof. destruct c; cbn; [trivial | intros _; apply emits_ret]. Qed.

Lemma emits_forEachFrom P cb :
  (forall x i, emits P (cb x i)) -> forall elems i, emits P (forEachFrom cb elems i).
Proof.
  intros Hcb elems; induction elems as [|x rest IH]; intros i; cbn.
  - apply emits_ret.
  - apply emits_bind; [apply Hcb | intros _; apply IH].
Qed.

Lemma emits_callForEach P v cb :
  (forall x i, emits P (cb x i)) -> emits P (callForEach v cb).
Proof.
  intros Hcb; destruct v; cbn; try apply emits_lift.
  now apply emits_forEachFrom.
Qed.

Lemma emits_weaken {A} (P Q : string -> Prop) (m : M A) :
  (forall s, P s -> Q s) -> emits P m -> emits Q m.
Proof.
  intros HPQ Hm this. destruct (Hm this) as [E F]. split; [exact E|].
  eapply Forall_impl; eauto.
Qed.

Ltac emits_step :=
  first
    [ apply emits_bind; [|intros ?]
    | apply emits_thisInvoice
    | apply emits_lift
    | apply emits_ret
    | apply emits_when
    | apply emits_callForEach; intros ? ?
    | apply emits_addError; cbn; reflexivity
    | match goal with
      | |- emits _ (if ?c then _ else _) => destruct c
      | |- emits _ (let x := ?v in _) => cbv zeta
      end ].

Ltac emits_tac := repeat emits_step.

Lemma emits_validateRoot : emits (tagged ["Root: "]) _validateRoot.
Proof. unfold _validateRoot. emits_tac. Qed.

Lemma emits_validateHeader {engine : Engine} :
  emits (tagged ["Structure: "; "Header: "]) _validateHeader.
Proof. unfold _validateHeader. emits_tac. Qed.

Lemma emits_validateBgmAndDtm : emits (tagged ["Body: "]) _validateBgmAndDtm.
Proof. unfold _validateBgmAndDtm. emits_tac. Qed.

Lemma emits_validatePartners : emits (tagged ["Partners: "]) _validatePartners.
Proof. unfold _validatePartners. emits_tac. Qed.

Lemma emits_validateLines : emits (tagged ["Lines: "; "Line "]) _validateLines.
Proof. unfold _validateLines. emits_tac. Qed.

Lemma emits_validateTotals : emits (tagged ["Totals: "; "Tax: "]) _validateTotals.
Proof. unfold _validateTotals. emits_tac. Qed.

(** ** The shape of [validate] *)

Section ValidateShape.
Context {engine : Engine}.

Lemma emits_runGroups : emits (tagged groupTags) runGroups.
Proof.
  unfold runGroups.
  repeat (apply emits_bind; [|intros _]).
  - eapply emits_weaken; [|apply emits_validateRoot].
    intros s; unfold tagged; cbn; intros H; rewrite orb_false_r in H; now rewrite H.
  - eapply emits_weaken; [|apply emits_validateHeader].
    intros s; unfold tagged; cbn; intros H; rewrite orb_false_r in H.
    destruct (orb_prop _ _ H) as [E|E]; rewrite E; now rewrite ?orb_true_r.
  - eapply emits_weaken; [|apply emits_validateBgmAndDtm].
    intros s; unfold tagged; cbn; intros H; rewrite orb_false_r in H; rewrite H.
    now rewrite ?orb_true_r.
  - eapply emits_weaken; [|apply emits_validatePartners].
    intros s; unfold tagged; cbn; intros H; rewrite orb_false_r in H; rewrite H.
    now rewrite ?orb_true_r.
  - eapply emits_weaken; [|apply emits_validateLines].
    intros s; unfold tagged; cbn; intros H; rewrite orb_false_r in H.
    destruct (orb_prop _ _ H) as [E|E]; rewrite E; now rewrite ?orb_true_r.
  - eapply emits_weaken; [|apply emits_validateTotals].
    intros s; unfold tagged; cbn; intros H; rewrite orb_false_r in H.
    destruct (orb_prop _ _ H) as [E|E]; rewrite E; now rewrite ?orb_true_r.
Qed.

Lemma then_final {A} (g1 g2 g3 g4 g5 g6 : M unit) (final : M A) s :
  (g1 ;; g2 ;; g3 ;; g4 ;; g5 ;; g6 ;; final) s =
  ((g1 ;; g2 ;; g3 ;; g4 ;; g5 ;; g6) ;; final) s.
Proof.
  unfold bind.
  destruct (g1 s) as [[[]|e1] s1]; [|reflexivity].
  destruct (g2 s1) as [[[]|e2] s2]; [|reflexivity].
  destruct (g3 s2) as [[[]|e3] s3]; [|reflexivity].
  destruct (g4 s3) as [[[]|e4] s4]; [|reflexivity].
  destruct (g5 s4) as [[[]|e5] s5]; [|reflexivity].
  destruct (g6 s5) as [[[]|e6] s6]; reflexivity.
Qed.

(** [validate] forgets the old error array, runs the groups and reports
    what they recorded; when a group throws, so does [validate]. *)
Lemma validate_eq this :
  validate this =
  match outcome runGroups (invoice this) with
  | Normal _ =>
      (Normal (reportOf (recorded runGroups (invoice this))),
       {| invoice := invoice this; errors := recorded runGroups (invoice this) |})
  | Throw e =>
      (Throw e, {| invoice := invoice this; errors := recorded runGroups (invoice this) |})
  end.
Proof.
  unfold validate. unfold bind at 1. unfold resetErrors.
  rewrite then_final. fold runGroups. unfold bind.
  destruct (emits_runGroups {| invoice := invoice this; errors := [] |}) as [E _].
  change (invoice {| invoice := invoice this; errors := [] |}) with (invoice this) in E.
  change (errors {| invoice := invoice this; errors := [] |}) with (@nil string) in E.
  rewrite app_nil_l in E. rewrite E.
  destruct (outcome runGroups (invoice this)) as [[]|e]; reflexivity.
Qed.

Lemma validate_invoice this : invoice (snd (validate this)) = invoice this.
Proof. rewrite validate_eq. now destruct (outcome runGroups (invoice this)). Qed.

Lemma validate_same_document a b : invoice a = invoice b -> validate a = validate b.
Proof. intros E. rewrite !validate_eq, E. reflexivity. Qed.

End ValidateShape.

(** ** The report *)

Section ReportProperties.
Context {engine : Engine}.

(** C4.  Whenever [validate] returns a report, its [isValid] flag is true
    exactly when its [errors] sequence is empty. *)
Theorem isValid_iff_no_errors this report :
  fst (validate this) = Normal report ->
  (Report.isValid report = true <-> Report.errors report = []).
Proof.
  rewrite validate_eq.
  destruct (outcome runGroups (invoice this)) as [[]|e]; cbn; [|discriminate].
  intros [= <-]. unfold reportOf; cbn.
  destruct (recorded runGroups (invoice this)); cbn; split; congruence.
Qed.

(** C5.  A second call of [validate] on the same validator completes as
    the first one did, with the same report (the same messages in the
    same order), and leaves the same error array: nothing of the first
    call is visible in the second. *)
Theorem validate_twice_same_errors this :
  fst (validate (snd (validate this))) = fst (validate this)
  /\ errors (snd (validate (snd (validate this)))) = errors (snd (validate this)).
Proof.
  rewrite (validate_same_document (snd (validate this)) this (validate_invoice this)).
  split; reflexivity.
Qed.

(** C9.  However often [validate] is called, the document held by the
    validator stays the one it was given. *)
Theorem validate_never_mutates_document this n :
  invoice (afterCalls n this) = invoice this.
Proof.
  revert this; induction n as [|n IH]; intros this; cbn; [reflexivity|].
  rewrite IH. apply validate_invoice.
Qed.

(** C6.  The example document of the source is valid: [validate] returns
    [isValid = true] and no errors. *)
Theorem valid_example_accepted :
  fst (validate (new_TEIFValidator validInvoiceData))
  = Normal {| Report.isValid := true; Report.errors := [] |}.
Proof. vm_compute. reflexivity. Qed.

(** C1 (the code faults).  When [Dtm] is an object instead of an array,
    [this.invoice.Dtm?.find] is not a function: [validate] throws a
    TypeError in its third group, with five messages recorded and no
    report returned; when the document itself is [null], the first
    property read of the Root group throws. *)
Theorem validate_throws_on_malformed_document :
  validate (new_TEIFValidator dtmObjectDocument)
  = (Throw TypeError,
     {| invoice := dtmObjectDocument;
        errors := [Msg.version; Msg.agency; Msg.headerMissing;
                   Msg.documentIdentifier; Msg.documentType] |})
  /\ validate (new_TEIFValidator JNull)
     = (Throw TypeError, {| invoice := JNull; errors := [] |}).
Proof. split; vm_compute; reflexivity. Qed.

(** C2 (the code skips the tax check).  On the empty document the Totals
    group records the missing amount collection and returns: the report
    has no message about the missing tax summary. *)
Theorem empty_document_has_no_tax_violation :
  fst (validate (new_TEIFValidator emptyDocument))
  = Normal {| Report.isValid := false; Report.errors := emptyDocumentErrors |}
  /\ In Msg.amounts emptyDocumentErrors
  /\ ~ In Msg.taxMissing emptyDocumentErrors.
Proof.
  split; [vm_compute; reflexivity|]. split.
  - unfold emptyDocumentErrors. cbn. tauto.
  - unfold emptyDocumentErrors. cbn.
    intros H. repeat (destruct H as [H|H]; [discriminate H|]). exact H.
Qed.

End ReportProperties.

(** The empty document: its report is invalid and its error sequence is
    not empty. *)
Lemma isValid_iff_no_errors_witness :
  fst (validate (engine := sampleEngine) (new_TEIFValidator emptyDocument))
  = Normal {| Report.isValid := false; Report.errors := emptyDocumentErrors |}
  /\ (Report.isValid {| Report.isValid := false; Report.errors := emptyDocumentErrors |}
      = true
      <-> Report.errors {| Report.isValid := false; Report.errors := emptyDocumentErrors |}
          = []).
Proof.
  split; [vm_compute; reflexivity|].
  apply (isValid_iff_no_errors (engine := sampleEngine) (new_TEIFValidator emptyDocument)).
  vm_compute; reflexivity.
Defined.

(** ** The groups one after the other *)

Lemma emits_any {A} (P : string -> Prop) (m : M A) : emits P m -> emits (fun _ => True) m.
Proof. apply emits_weaken; trivial. Qed.

Lemma then_fresh (m k : M unit) doc :
  emits (fun _ => True) m -> emits (fun _ => True) k ->
  outcome (m ;; k) doc
  = match outcome m doc with Normal _ => outcome k doc | Throw e => Throw e end
  /\ recorded (m ;; k) doc
     = (recorded m doc
        ++ match outcome m doc with Normal _ => recorded k doc | Throw _ => [] end)%list.
Proof.
  intros Hm Hk. unfold outcome at 1, recorded at 1.
  rewrite (bind_fresh (fun _ => True) m (fun _ => k) doc Hm (fun _ => Hk)).
  destruct (outcome m doc); cbn; [split; reflexivity|].
  now rewrite app_nil_r.
Qed.

Section Groups.
Context {engine : Engine}.

(** When no group throws, [validate] reports the messages of the six
    groups in their order. *)
Lemma runGroups_normal doc :
  outcome _validateRoot doc = Normal tt ->
  outcome _validateHeader doc = Normal tt ->
  outcome _validateBgmAndDtm doc = Normal tt ->
  outcome _validatePartners doc = Normal tt ->
  outcome _validateLines doc = Normal tt ->
  outcome _validateTotals doc = Normal tt ->
  outcome runGroups doc = Normal tt
  /\ recorded runGroups doc
     = (recorded _validateRoot doc ++ recorded _validateHeader doc
        ++ recorded _validateBgmAndDtm doc ++ recorded _validatePartners doc
        ++ recorded _validateLines doc ++ recorded _validateTotals doc)%list.
Proof.
  intros H1 H2 H3 H4 H5 H6.
  pose proof (emits_any _ _ emits_validateRoot) as E1.
  pose proof (emits_any _ _ emits_validateHeader) as E2.
  pose proof (emits_any _ _ emits_validateBgmAndDtm) as E3.
  pose proof (emits_any _ _ emits_validatePartners) as E4.
  pose proof (emits_any _ _ emits_validateLines) as E5.
  pose proof (emits_any _ _ emits_validateTotals) as E6.
  unfold runGroups.
  destruct (then_fresh _validateLines _validateTotals doc E5 E6) as [O5 R5].
  rewrite H5 in O5, R5.
  pose proof (emits_bind _ _ (fun _ => _validateTotals) E5 (fun _ => E6)) as E56.
  destruct (then_fresh _validatePartners _ doc E4 E56) as [O4 R4].
  rewrite H4 in O4, R4.
  pose proof (emits_bind _ _ _ E4 (fun _ => E56)) as E46.
  destruct (then_fresh _validateBgmAndDtm _ doc E3 E46) as [O3 R3].
  rewrite H3 in O3, R3.
  pose proof (emits_bind _ _ _ E3 (fun _ => E46)) as E36.
  destruct (then_fresh _validateHeader _ doc E2 E36) as [O2 R2].
  rewrite H2 in O2, R2.
  pose proof (emits_bind _ _ _ E2 (fun _ => E36)) as E26.
  destruct (then_fresh _validateRoot _ doc E1 E26) as [O1 R1].
  rewrite H1 in O1, R1.
  split.
  - rewrite O1, O2, O3, O4, O5. exact H6.
  - rewrite R1, R2, R3, R4, R5. reflexivity.
Qed.

(** When [validate] returns, no group threw. *)
Lemma runGroups_outcomes doc u :
  outcome runGroups doc = Normal u ->
  outcome _validateRoot doc = Normal tt /\
  outcome _validateHeader doc = Normal tt /\
  outcome _validateBgmAndDtm doc = Normal tt /\
  outcome _validatePartners doc = Normal tt /\
  outcome _validateLines doc = Normal tt /\
  outcome _validateTotals doc = Normal tt.
Proof.
  pose proof (emits_any _ _ emits_validateRoot) as E1.
  pose proof (emits_any _ _ emits_validateHeader) as E2.
  pose proof (emits_any _ _ emits_validateBgmAndDtm) as E3.
  pose proof (emits_any _ _ emits_validatePartners) as E4.
  pose proof (emits_any _ _ emits_validateLines) as E5.
  pose proof (emits_any _ _ emits_validateTotals) as E6.
  pose proof (emits_bind _ _ (fun _ => _validateTotals) E5 (fun _ => E6)) as E56.
  pose proof (emits_bind _ _ _ E4 (fun _ => E56)) as E46.
  pose proof (emits_bind _ _ _ E3 (fun _ => E46)) as E36.
  pose proof (emits_bind _ _ _ E2 (fun _ => E36)) as E26.
  unfold runGroups.
  destruct (then_fresh _validateRoot _ doc E1 E26) as [O1 _]. rewrite O1.
  destruct (outcome _validateRoot doc) as [[]|]; [|discriminate].
  destruct (then_fresh _validateHeader _ doc E2 E36) as [O2 _]. rewrite O2.
  destruct (outcome _validateHeader doc) as [[]|]; [|discriminate].
  destruct (then_fresh _validateBgmAndDtm _ doc E3 E46) as [O3 _]. rewrite O3.
  destruct (outcome _validateBgmAndDtm doc) as [[]|]; [|discriminate].
  destruct (then_fresh _validatePartners _ doc E4 E56) as [O4 _]. rewrite O4.
  destruct (outcome _validatePartners doc) as [[]|]; [|discriminate].
  destruct (then_fresh _validateLines _ doc E5 E6) as [O5 _]. rewrite O5.
  destruct (outcome _validateLines doc) as [[]|]; [|discriminate].
  destruct (outcome _validateTotals doc) as [[]|]; [|discriminate].
  intros _. repeat split.
Qed.

End Groups.

Lemma untagged_not_recorded tags message (l : list string) :
  Forall (tagged tags) l ->
  existsb (fun t => startsWith t message) tags = false ->
  ~ In message l.
Proof.
  intros F E H. rewrite Forall_forall in F. specialize (F _ H).
  unfold tagged in F. congruence.
Qed.

(** ** Trading partners *)

Lemma partners_single_entry this section entry :
  get (invoice this) "PartnerSection" = Normal section ->
  getOpt section "PartnerDetails" = JArray [entry] ->
  _validatePartners this
  = (Normal tt, {| invoice := invoice this; errors := (errors this ++ [Msg.partners])%list |}).
Proof.
  intros H1 H2. unfold _validatePartners, bind, thisInvoice, lift.
  rewrite H1. cbv zeta. rewrite H2. reflexivity.
Qed.

(** C3, as the code has it.  When the partner collection has a single
    entry (the supplier, or any other), the Trading-Partners group records
    the length violation and returns: every report of [validate] contains
    that violation and no violation asking for a buyer. *)
Theorem single_partner_only_length_violation {engine : Engine} this section entry :
  get (invoice this) "PartnerSection" = Normal section ->
  getOpt section "PartnerDetails" = JArray [entry] ->
  _validatePartners this
  = (Normal tt, {| invoice := invoice this; errors := (errors this ++ [Msg.partners])%list |})
  /\ forall report,
       fst (validate this) = Normal report ->
       In Msg.partners (Report.errors report)
       /\ ~ In Msg.buyerRequired (Report.errors report).
Proof.
  intros H1 H2. split; [now apply (partners_single_entry this section entry)|].
  intros report. rewrite validate_eq.
  destruct (outcome runGroups (invoice this)) as [[]|e] eqn:O; cbn; [|discriminate].
  intros [= <-]. cbn.
  destruct (runGroups_outcomes _ _ O) as (O1 & O2 & O3 & O4 & O5 & O6).
  destruct (runGroups_normal _ O1 O2 O3 O4 O5 O6) as [_ ->].
  assert (R4 : recorded _validatePartners (invoice this) = [Msg.partners]).
  { unfold recorded.
    rewrite (partners_single_entry (new_TEIFValidator (invoice this)) section entry H1 H2).
    reflexivity. }
  rewrite R4. split.
  - rewrite !in_app_iff. right; right; right; left. now left.
  - rewrite !in_app_iff. intros [H|[H|[H|[H|[H|H]]]]].
    + revert H. apply (untagged_not_recorded ["Root: "]); [|reflexivity].
      apply (emits_validateRoot (new_TEIFValidator (invoice this))).
    + revert H. apply (untagged_not_recorded ["Structure: "; "Header: "]); [|reflexivity].
      apply (emits_validateHeader (new_TEIFValidator (invoice this))).
    + revert H. apply (untagged_not_recorded ["Body: "]); [|reflexivity].
      apply (emits_validateBgmAndDtm (new_TEIFValidator (invoice this))).
    + destruct H as [H|[]]. discriminate H.
    + revert H. apply (untagged_not_recorded ["Lines: "; "Line "]); [|reflexivity].
      apply (emits_validateLines (new_TEIFValidator (invoice this))).
    + revert H. apply (untagged_not_recorded ["Totals: "; "Tax: "]); [|reflexivity].
      apply (emits_validateTotals (new_TEIFValidator (invoice this))).
Qed.

(** The example document without its buyer entry gets the length
    violation only. *)
Lemma supplier_only_lacks_buyer_violation :
  fst (validate (engine := sampleEngine) (new_TEIFValidator supplierOnlyInvoice))
  = Normal {| Report.isValid := false; Report.errors := [Msg.partners] |}
  /\ ~ In Msg.buyerRequired [Msg.partners].
Proof.
  split; [vm_compute; reflexivity|].
  intros [H|[]]. discriminate H.
Qed.

Lemma single_partner_only_length_violation_witness :
  _validatePartners (new_TEIFValidator supplierOnlyInvoice)
  = (Normal tt, {| invoice := supplierOnlyInvoice; errors := [Msg.partners] |})
  /\ forall report,
       fst (validate (engine := sampleEngine) (new_TEIFValidator supplierOnlyInvoice))
       = Normal report ->
       In Msg.partners (Report.errors report)
       /\ ~ In Msg.buyerRequired (Report.errors report).
Proof.
  apply (single_partner_only_length_violation (engine := sampleEngine)
           (new_TEIFValidator supplierOnlyInvoice)
           (JObject [("PartnerDetails", JArray [supplierEntry])]) supplierEntry);
    reflexivity.
Defined.

(** ** The identifier pattern *)

Lemma In_existsb_ascii (c : ascii) (l : list ascii) :
  In c l <-> existsb (Ascii.eqb c) l = true.
Proof.
  rewrite existsb_exists. split.
  - intros H. exists c. split; [exact H | apply Ascii.eqb_refl].
  - intros (x & H & E). apply Ascii.eqb_eq in E. now subst.
Qed.

Lemma classMatches_Digit c : classMatches Digit c = true <-> In c digits.
Proof.
  rewrite In_existsb_ascii.
  destruct c as [[] [] [] [] [] [] [] []]; vm_compute; split; trivial.
Qed.

Lemma classMatches_Upper c : classMatches Upper c = true <-> In c uppercaseLetters.
Proof.
  rewrite In_existsb_ascii.
  destruct c as [[] [] [] [] [] [] [] []]; vm_compute; split; trivial.
Qed.

Lemma classMatches_Literal l c : classMatches (Literal l) c = true <-> c = l.
Proof. apply Ascii.eqb_eq. Qed.

Lemma searchFrom_taxIdRegex_later s : forall pos, searchFrom taxIdRegex (S pos) s = false.
Proof.
  induction s as [|c s IH]; intros pos.
  - reflexivity.
  - change (searchFrom taxIdRegex (S pos) (String c s))
      with (false || searchFrom taxIdRegex (S (S pos)) s). now rewrite IH.
Qed.

Lemma test_taxIdRegex_here s : test taxIdRegex s = matchHere taxIdRegex 0 s.
Proof.
  unfold test. destruct s as [|c s].
  - reflexivity.
  - change (searchFrom taxIdRegex 0 (String c s))
      with (matchHere taxIdRegex 0 (String c s) || searchFrom taxIdRegex 1 s).
    now rewrite searchFrom_taxIdRegex_later, orb_false_r.
Qed.


Lemma append_empty_r (s : string) : s ++ "" = s.
Proof. induction s as [|c s IH]; cbn; [reflexivity | now rewrite IH]. Qed.

Lemma string_of_list_ascii_app' (a b : list ascii) :
  string_of_list_ascii (a ++ b) = string_of_list_ascii a ++ string_of_list_ascii b.
Proof. induction a as [|x a IH]; cbn; [reflexivity | now rewrite IH]. Qed.

Lemma matchRepeat_Some cl n : forall s rest,
  matchRepeat cl n s = Some rest <->
  exists l, length l = n /\ Forall (fun c => classMatches cl c = true) l
            /\ s = string_of_list_ascii l ++ rest.
Proof.
  induction n as [|n IH]; intros s rest; cbn [matchRepeat].
  - split.
    + intros [= ->]. exists []. repeat split. constructor.
    + intros (l & L & _ & ->). destruct l; [reflexivity | discriminate L].
  - destruct s as [|c s].
    + split; [discriminate|].
      intros ([|x l] & L & _ & E); [discriminate L | discriminate E].
    + destruct (classMatches cl c) eqn:C.
      * rewrite IH. split.
        -- intros (l & L & F & ->). exists (c :: l). cbn. repeat split; auto.
        -- intros ([|x l] & L & F & E); [discriminate L|].
           cbn in E. injection E as -> ->. injection L as L.
           exists l. repeat split; auto. now inversion F.
      * split; [discriminate|].
        intros ([|x l] & L & F & E); [discriminate L|].
        cbn in E. injection E as -> ->. inversion F; congruence.
Qed.

Lemma matchRepeat_one cl c rest :
  matchRepeat cl 1 (String c rest) = if classMatches cl c then Some rest else None.
Proof. reflexivity. Qed.

Lemma one_char (P : ascii -> Prop) (l : list ascii) :
  length l = 1 -> Forall P l -> exists a, l = [a] /\ P a.
Proof.
  destruct l as [|a [|b l]]; try discriminate. intros _ F. exists a. split; auto.
  now inversion F.
Qed.

Lemma taxIdRegex_matches_format s : test taxIdRegex s = true <-> TaxIdFormat s.
Proof.
  rewrite test_taxIdRegex_here. unfold taxIdRegex. cbn [matchHere Nat.eqb andb]. split.
  - destruct (matchRepeat Digit 7 s) as [r1|] eqn:M1; [|discriminate].
    destruct (matchRepeat Upper 1 r1) as [r2|] eqn:M2; [|discriminate].
    destruct (matchRepeat (Literal "/") 1 r2) as [r3|] eqn:M3; [|discriminate].
    destruct (matchRepeat Upper 1 r3) as [r4|] eqn:M4; [|discriminate].
    destruct (matchRepeat (Literal "/") 1 r4) as [r5|] eqn:M5; [|discriminate].
    destruct (matchRepeat Upper 1 r5) as [r6|] eqn:M6; [|discriminate].
    destruct (matchRepeat (Literal "/") 1 r6) as [r7|] eqn:M7; [|discriminate].
    destruct (matchRepeat Digit 3 r7) as [r8|] eqn:M8; [|discriminate].
    destruct r8 as [|? ?]; [intros _|discriminate].
    apply matchRepeat_Some in M1, M2, M3, M4, M5, M6, M7, M8.
    destruct M1 as (d & Ld & Fd & ->).
    destruct M2 as (l2 & L2 & F2 & ->). destruct (one_char _ _ L2 F2) as (a & -> & Ha).
    destruct M3 as (l3 & L3 & F3 & ->). destruct (one_char _ _ L3 F3) as (x3 & -> & H3).
    destruct M4 as (l4 & L4 & F4 & ->). destruct (one_char _ _ L4 F4) as (b & -> & Hb).
    destruct M5 as (l5 & L5 & F5 & ->). destruct (one_char _ _ L5 F5) as (x5 & -> & H5).
    destruct M6 as (l6 & L6 & F6 & ->). destruct (one_char _ _ L6 F6) as (c & -> & Hc).
    destruct M7 as (l7 & L7 & F7 & ->). destruct (one_char _ _ L7 F7) as (x7 & -> & H7).
    destruct M8 as (e & Le & Fe & ->).
    apply classMatches_Literal in H3, H5, H7. subst x3 x5 x7.
    exists d, a, b, c, e. repeat split.
    + rewrite !string_of_list_ascii_app'. cbn. now rewrite append_empty_r.
    + exact Ld.
    + eapply Forall_impl; [|exact Fd]. intros x; apply classMatches_Digit.
    + now apply classMatches_Upper.
    + now apply classMatches_Upper.
    + now apply classMatches_Upper.
    + exact Le.
    + eapply Forall_impl; [|exact Fe]. intros x; apply classMatches_Digit.
  - intros (d & a & b & c & e & -> & Ld & Fd & Ha & Hb & Hc & Le & Fe).
    rewrite string_of_list_ascii_app'.
    assert (M1 : forall rest, matchRepeat Digit 7 (string_of_list_ascii d ++ rest) = Some rest).
    { intros rest. apply matchRepeat_Some. exists d. repeat split; auto.
      eapply Forall_impl; [|exact Fd]. intros x; apply classMatches_Digit. }
    rewrite M1. cbn [app string_of_list_ascii].
    apply classMatches_Upper in Ha, Hb, Hc.
    assert (S : classMatches (Literal "/") "/" = true) by reflexivity.
    repeat (rewrite matchRepeat_one;
            first [rewrite Ha | rewrite Hb | rewrite Hc | rewrite S]; cbv beta iota).
    assert (M8 : matchRepeat Digit 3 (string_of_list_ascii e) = Some "").
    { apply matchRepeat_Some. exists e. repeat split; auto.
      - eapply Forall_impl; [|exact Fe]. intros x; apply classMatches_Digit.
      - now rewrite append_empty_r. }
    rewrite M8. reflexivity.
Qed.

(** ** Property reads that cannot throw *)

Lemma get_not_nullish v k : nullish v = false -> get v k = Normal (getOwn v k).
Proof. unfold get. now intros ->. Qed.

Lemma truthy_not_nullish v : truthy v = true -> nullish v = false.
Proof. destruct v; cbn; congruence. Qed.

Lemma get_Normal v k x : get v k = Normal x -> nullish v = false /\ getOwn v k = x.
Proof. unfold get. destruct (nullish v); [discriminate|]. now intros [= ->]. Qed.

(** ** Where a group stops short *)

Lemma callFind_not_array v cb : isArray v = false -> callFind v cb = Throw TypeError.
Proof. destruct v; cbn; congruence. Qed.

(** Whatever the document holds elsewhere, date entries that are present
    but not an array make the group throw. *)
Lemma dtm_not_array_throws this dtm :
  get (invoice this) "Dtm" = Normal dtm ->
  nullish dtm = false -> isArray dtm = false ->
  fst (_validateBgmAndDtm this) = Throw TypeError.
Proof.
  intros H N A. destruct (get_Normal _ _ _ H) as [Ni _].
  unfold _validateBgmAndDtm, bind, thisInvoice, lift, notOr, callFindOpt.
  rewrite H, N, (callFind_not_array dtm _ A).
  rewrite (get_not_nullish (invoice this) "Bgm" Ni).
  destruct (truthy (getOwn (invoice this) "Bgm")) eqn:T; cbn [negb].
  - rewrite (get_not_nullish _ "DocumentIdentifier" (truthy_not_nullish _ T)). cbn [bindC].
    destruct (negb (truthy (getOwn (getOwn (invoice this) "Bgm") "DocumentIdentifier")));
      cbn [when _addError ret];
      destruct (negb (strictEq _ "I-11")); reflexivity.
  - cbn [when _addError]. destruct (negb (strictEq _ "I-11")); reflexivity.
Qed.

(** Without a usable amount collection the Totals group records one
    message and returns; nothing after the guard is evaluated. *)
Lemma totals_amounts_missing this moa :
  get (invoice this) "InvoiceMoa" = Normal moa ->
  truthy (getOpt moa "AmountDetails") = false \/ isArray (getOpt moa "AmountDetails") = false ->
  _validateTotals this
  = (Normal tt, {| invoice := invoice this; errors := (errors this ++ [Msg.amounts])%list |}).
Proof.
  intros H C. unfold _validateTotals, bind, thisInvoice, lift. rewrite H. cbv zeta.
  assert (G : negb (truthy (getOpt moa "AmountDetails"))
              || negb (isArray (getOpt moa "AmountDetails")) = true).
  { destruct C as [-> | ->]; cbn; [reflexivity | apply orb_true_r]. }
  rewrite G. reflexivity.
Qed.

(** ** The header *)

Section HeaderProperties.
Context {engine : Engine}.

Lemma party_block (party : Value) missing (format : string -> string) this :
  (absent <- lift (notOr party (v <~ get party "value" ;; Normal (negb (truthy v)))) ;;
   (if absent then _addError missing
    else value <- lift (get party "value") ;;
         matches <- lift (regexTest taxIdRegex value) ;;
         when (negb matches)
              (value <- lift (get party "value") ;;
               str <- lift (ToString value) ;;
               _addError (format str)))) this
  = (fst (partyCheck party missing format),
     {| invoice := invoice this;
        errors := (errors this ++ snd (partyCheck party missing format))%list |}).
Proof.
  unfold partyCheck, bind, lift, notOr, regexTest.
  destruct (truthy party) eqn:T; cbn [negb orb].
  - rewrite (get_not_nullish party "value" (truthy_not_nullish _ T)). cbn [bindC].
    destruct (truthy (getOwn party "value")); cbn [negb]; [|reflexivity].
    destruct (ToString (getOwn party "value")) as [str|e]; cbn [bindC fst snd].
    + destruct (test taxIdRegex str); cbn [negb when].
      * unfold ret. rewrite app_nil_r. now destruct this.
      * reflexivity.
    + rewrite app_nil_r. now destruct this.
  - reflexivity.
Qed.

Lemma party_block_then {B} (party : Value) missing (format : string -> string)
      (k : M B) this :
  (absent <- lift (notOr party (v <~ get party "value" ;; Normal (negb (truthy v)))) ;;
   (if absent then _addError missing
    else value <- lift (get party "value") ;;
         matches <- lift (regexTest taxIdRegex value) ;;
         when (negb matches)
              (value <- lift (get party "value") ;;
               str <- lift (ToString value) ;;
               _addError (format str))) ;;
   k) this
  = match fst (partyCheck party missing format) with
    | Normal _ =>
        k {| invoice := invoice this;
             errors := (errors this ++ snd (partyCheck party missing format))%list |}
    | Throw e =>
        (Throw e,
         {| invoice := invoice this;
            errors := (errors this ++ snd (partyCheck party missing format))%list |})
    end.
Proof.
  pose proof (party_block party missing format this) as E.
  unfold bind at 1 in E. unfold bind at 1.
  destruct (lift (notOr party (v <~ get party "value";; Normal (negb (truthy v)))) this)
    as [[absent|e] s1].
  - unfold bind at 1. rewrite E.
    now destruct (fst (partyCheck party missing format)).
  - injection E as <- ->. reflexivity.
Qed.

(** With the header present, the group is the sender's check followed,
    unless it threw, by the receiver's. *)
Lemma header_present this header :
  get (invoice this) "InvoiceHeader" = Normal header -> truthy header = true ->
  let sender := partyCheck (getOwn header "MessageSenderIdentifier")
                  Msg.senderMissing Msg.senderFormat in
  let receiver := partyCheck (getOwn header "MessageReceiverIdentifier")
                    Msg.receiverMissing Msg.receiverFormat in
  _validateHeader this
  = match fst sender with
    | Normal _ =>
        (fst receiver,
         {| invoice := invoice this;
            errors := (errors this ++ snd sender ++ snd receiver)%list |})
    | Throw e =>
        (Throw e, {| invoice := invoice this; errors := (errors this ++ snd sender)%list |})
    end.
Proof.
  intros H T sender receiver. unfold _validateHeader.
  unfold bind at 1. unfold thisInvoice. unfold bind at 1. unfold lift at 1. rewrite H, T.
  cbn [negb].
  unfold bind at 1. unfold lift at 1.
  rewrite (get_not_nullish header _ (truthy_not_nullish _ T)).
  rewrite party_block_then. fold sender.
  destruct (fst sender); [|reflexivity].
  unfold bind at 1. unfold lift at 1.
  rewrite (get_not_nullish header _ (truthy_not_nullish _ T)).
  rewrite party_block. fold receiver. cbn [invoice errors]. now rewrite app_assoc.
Qed.



End HeaderProperties.



(** ** Line items *)

Lemma le_zero_nonPositive n : le_zero n = nonPositive n.
Proof. destruct n as [[]|[]| |[] ? ?]; reflexivity. Qed.

Lemma lt_zero_negative n : lt_zero n = negative n.
Proof. destruct n as [[]|[]| |[] ? ?]; reflexivity. Qed.

Lemma notNumberOr_quantity line :
  notNumberOr le_zero (getOwn line "Quantity") = quantityInvalid line.
Proof.
  unfold quantityInvalid. destruct (getOwn line "Quantity"); try reflexivity.
  apply le_zero_nonPositive.
Qed.

Lemma notNumberOr_unitPrice line :
  notNumberOr lt_zero (getOwn line "UnitPrice") = unitPriceInvalid line.
Proof.
  unfold unitPriceInvalid. destruct (getOwn line "UnitPrice"); try reflexivity.
  apply lt_zero_negative.
Qed.

Lemma lineCallback_readable line index this :
  nullish line = false ->
  lineCallback line index this
  = (Normal tt, {| invoice := invoice this;
                   errors := errors this ++ lineViolations (index + 1) line |}).
Proof.
  intros N. unfold lineCallback, lineViolations, bind, lift, notOr.
  rewrite !(get_not_nullish line _ N).
  rewrite notNumberOr_quantity, notNumberOr_unitPrice.
  unfold itemMissing.
  destruct (truthy (getOwn line "ItemIdentifier")); cbn [negb orb bindC];
    destruct (truthy (getOwn line "Description")); cbn [negb when];
    destruct (quantityInvalid line); cbn [when];
    destruct (unitPriceInvalid line); cbn [when];
    unfold ret, _addError; cbn [invoice errors app];
    rewrite <- ?app_assoc, ?app_nil_r; cbn [app]; destruct this; reflexivity.
Qed.

Lemma lineCallback_nullish line index this :
  nullish line = true -> lineCallback line index this = (Throw TypeError, this).
Proof. intros N. unfold lineCallback, bind, lift, get. now rewrite N. Qed.

Lemma forEachFrom_lines lines : forall index this,
  forEachFrom lineCallback lines index this
  = (if forallb (fun line => negb (nullish line)) lines then Normal tt else Throw TypeError,
     {| invoice := invoice this;
        errors := errors this ++ violationsFrom index (readable lines) |}).
Proof.
  induction lines as [|line rest IH]; intros index this; cbn [forEachFrom forallb readable].
  - unfold ret. cbn. rewrite app_nil_r. now destruct this.
  - unfold bind. destruct (nullish line) eqn:N.
    + rewrite (lineCallback_nullish _ _ _ N). cbn. rewrite app_nil_r. now destruct this.
    + rewrite (lineCallback_readable _ _ _ N). rewrite IH. cbn.
      now rewrite <- app_assoc.
Qed.

Lemma readable_all lines :
  Forall (fun line => nullish line = false) lines ->
  readable lines = lines /\ forallb (fun line => negb (nullish line)) lines = true.
Proof.
  induction 1 as [|line rest N _ [IH1 IH2]]; cbn; [split; reflexivity|].
  rewrite N, IH1, IH2. split; reflexivity.
Qed.

Lemma validateLines_nonempty this sections lines :
  get (invoice this) "LinSection" = Normal sections ->
  getOpt (getOpt sections (Index 0)) "Lin" = JArray lines ->
  lines <> [] ->
  _validateLines this = forEachFrom lineCallback lines 0 this.
Proof.
  intros H1 H2 NE. unfold _validateLines, bind, thisInvoice, lift.
  rewrite H1. cbv zeta. rewrite H2.
  destruct lines as [|line rest]; [congruence|]. reflexivity.
Qed.

Lemma string_of_uint_no_colon d :
  Forall (fun c => c <> ":"%char) (list_ascii_of_string (NilEmpty.string_of_uint d)).
Proof. induction d; cbn; constructor; try discriminate; assumption. Qed.

Lemma decimal_inj p q : decimal p = decimal q -> p = q.
Proof.
  unfold decimal. intros E. apply Unsigned.to_uint_inj.
  pose proof (NilEmpty.usu (Nat.to_uint p)) as Hp.
  pose proof (NilEmpty.usu (Nat.to_uint q)) as Hq.
  rewrite E in Hp. congruence.
Qed.

Lemma append_colon_inj a : forall b x y,
  Forall (fun c => c <> ":"%char) (list_ascii_of_string a) ->
  Forall (fun c => c <> ":"%char) (list_ascii_of_string b) ->
  a ++ String ":" x = b ++ String ":" y -> a = b /\ x = y.
Proof.
  induction a as [|c a IH]; intros [|d b] x y Fa Fb E; cbn in *.
  - injection E as ->. now split.
  - injection E as <- _. inversion Fb; congruence.
  - injection E as -> _. inversion Fa; congruence.
  - injection E as -> E. inversion Fa; inversion Fb; subst.
    destruct (IH b x y) as [-> ->]; auto.
Qed.

Lemma line_message_inj p q x y :
  "Line " ++ decimal p ++ String ":" x = "Line " ++ decimal q ++ String ":" y ->
  p = q /\ x = y.
Proof.
  cbn [append]. intros [= E].
  apply append_colon_inj in E; try apply string_of_uint_no_colon.
  destruct E as [E ->]. split; [now apply decimal_inj | reflexivity].
Qed.

Lemma In_lineViolations_item p q line :
  In (Msg.lineItem p) (lineViolations q line) <-> p = q /\ itemMissing line = true.
Proof.
  unfold lineViolations.
  destruct (itemMissing line), (quantityInvalid line), (unitPriceInvalid line);
    cbn [In app]; split;
    try (intros [? ?]; subst; now auto);
    intros H; repeat (destruct H as [H|H]; [|]); try contradiction;
    apply line_message_inj in H; destruct H as [-> H]; try discriminate H; now auto.
Qed.

Lemma In_lineViolations_quantity p q line :
  In (Msg.lineQuantity p) (lineViolations q line) <-> p = q /\ quantityInvalid line = true.
Proof.
  unfold lineViolations.
  destruct (itemMissing line), (quantityInvalid line), (unitPriceInvalid line);
    cbn [In app]; split;
    try (intros [? ?]; subst; now auto);
    intros H; repeat (destruct H as [H|H]; [|]); try contradiction;
    apply line_message_inj in H; destruct H as [-> H]; try discriminate H; now auto.
Qed.

Lemma In_lineViolations_unitPrice p q line :
  In (Msg.lineUnitPrice p) (lineViolations q line) <-> p = q /\ unitPriceInvalid line = true.
Proof.
  unfold lineViolations.
  destruct (itemMissing line), (quantityInvalid line), (unitPriceInvalid line);
    cbn [In app]; split;
    try (intros [? ?]; subst; now auto);
    intros H; repeat (destruct H as [H|H]; [|]); try contradiction;
    apply line_message_inj in H; destruct H as [-> H]; try discriminate H; now auto.
Qed.

Lemma In_violationsFrom message lines : forall index,
  In message (violationsFrom index lines) <->
  exists j line, nth_error lines j = Some line
                 /\ In message (lineViolations (index + j + 1) line).
Proof.
  induction lines as [|l rest IH]; intros index; cbn [violationsFrom].
  - split; [intros [] | intros ([|j] & line & H & _); discriminate H].
  - rewrite in_app_iff, IH. split.
    + intros [H|(j & line & H1 & H2)].
      * exists 0, l. rewrite Nat.add_0_r. now split.
      * exists (S j), line. split; [exact H1|].
        now replace (index + S j + 1) with (S index + j + 1) by lia.
    + intros ([|j] & line & H1 & H2).
      * injection H1 as ->. left. now rewrite Nat.add_0_r in H2.
      * right. exists j, line. split; [exact H1|].
        now replace (S index + j + 1) with (index + S j + 1) by lia.
Qed.

Lemma readable_nth_error lines : forall j line,
  nth_error (readable lines) j = Some line -> nth_error lines j = Some line.
Proof.
  induction lines as [|l rest IH]; intros j line; cbn [readable]; [trivial|].
  destruct (nullish l); [destruct j; discriminate|].
  destruct j; cbn; [trivial | apply IH].
Qed.







Lemma violationsFrom_valid lines : forall index,
  Forall validLine lines -> violationsFrom index lines = [].
Proof.
  induction lines as [|l rest IH]; intros index F; [reflexivity|].
  inversion F as [|? ? (_ & A & B & C) F']; subst. cbn [violationsFrom].
  rewrite (IH _ F'). unfold lineViolations. now rewrite A, B, C.
Qed.

Lemma validLine_readable lines :
  Forall validLine lines -> Forall (fun line => nullish line = false) lines.
Proof. apply Forall_impl. now intros l (N & _). Qed.



Section LineProperties.
Context {engine : Engine}.


End LineProperties.

Lemma lineViolations_nan line p :
  getOwn line "Quantity" = JNumber NaN -> getOwn line "UnitPrice" = JNumber NaN ->
  itemMissing line = false -> lineViolations p line = [].
Proof.
  intros Q U I. unfold lineViolations, quantityInvalid, unitPriceInvalid.
  now rewrite Q, U, I.
Qed.

Lemma getOwn_nullish v k : nullish v = true -> getOwn v k = JUndefined.
Proof. destruct v; cbn; congruence. Qed.

(** C10.  A line whose [Quantity] is NaN gets no quantity violation and
    a line whose [UnitPrice] is NaN gets no unit-price violation, wherever
    it stands in the line collection: [typeof NaN] is ["number"] and both
    comparisons of NaN with zero are false.  When its identifier and
    description are present, the callback records nothing for it. *)
Theorem nan_quantity_and_price_accepted this sections lines i line :
  get (invoice this) "LinSection" = Normal sections ->
  getOpt (getOpt sections (Index 0)) "Lin" = JArray lines ->
  nth_error lines i = Some line ->
  (typeof (JNumber NaN) = "number" /\ le_zero NaN = false /\ lt_zero NaN = false)
  /\ exists completion added,
       _validateLines this
       = (completion, {| invoice := invoice this; errors := (errors this ++ added)%list |})
       /\ (getOwn line "Quantity" = JNumber NaN -> ~ In (Msg.lineQuantity (i + 1)) added)
       /\ (getOwn line "UnitPrice" = JNumber NaN -> ~ In (Msg.lineUnitPrice (i + 1)) added)
       /\ (getOwn line "Quantity" = JNumber NaN ->
           getOwn line "UnitPrice" = JNumber NaN ->
           itemMissing line = false ->
           forall s, lineCallback line i s = (Normal tt, s)).
Proof.
  intros H1 H2 Hi. split; [repeat split|].
  assert (NE : lines <> []) by (intros ->; destruct i; discriminate Hi).
  rewrite (validateLines_nonempty this sections lines H1 H2 NE), forEachFrom_lines.
  eexists. eexists. split; [reflexivity|]. repeat split.
  - intros Q H. apply In_violationsFrom in H. destruct H as (j & l & Hj & H).
    apply readable_nth_error in Hj.
    apply In_lineViolations_quantity in H. destruct H as [E H].
    assert (j = i) as -> by lia. assert (l = line) as -> by congruence.
    unfold quantityInvalid in H. rewrite Q in H. discriminate H.
  - intros U H. apply In_violationsFrom in H. destruct H as (j & l & Hj & H).
    apply readable_nth_error in Hj.
    apply In_lineViolations_unitPrice in H. destruct H as [E H].
    assert (j = i) as -> by lia. assert (l = line) as -> by congruence.
    unfold unitPriceInvalid in H. rewrite U in H. discriminate H.
  - intros Q U I s.
    assert (N : nullish line = false).
    { destruct (nullish line) eqn:N; [|reflexivity].
      rewrite (getOwn_nullish line _ N) in Q. discriminate Q. }
    rewrite (lineCallback_readable line i s N), (lineViolations_nan line _ Q U I).
    rewrite app_nil_r. now destruct s.
Qed.



Lemma nan_quantity_and_price_accepted_witness :
  exists completion added,
    _validateLines (new_TEIFValidator (invoiceWithLines [nanLine]))
    = (completion, {| invoice := invoiceWithLines [nanLine]; errors := added |})
    /\ ~ In (Msg.lineQuantity 1) added
    /\ ~ In (Msg.lineUnitPrice 1) added.
Proof.
  destruct (nan_quantity_and_price_accepted
              (new_TEIFValidator (invoiceWithLines [nanLine]))
              (JArray [JObject [("Lin", JArray [nanLine])]]) [nanLine] 0 nanLine)
    as (_ & completion & added & E & Q & U & _); try reflexivity.
  exists completion, added. split; [exact E|].
  split; [apply Q | apply U]; reflexivity.
Defined.

(** * Beyond the single rules *)

Lemma codeIs_readable key code entry :
  nullish entry = false -> codeIs key code entry = Normal (hasCode key code entry).
Proof. intros N. unfold codeIs, hasCode. now rewrite (get_not_nullish entry key N). Qed.

Lemma codeIs_nullish key code entry :
  nullish entry = true -> codeIs key code entry = Throw TypeError.
Proof. intros N. unfold codeIs, get. now rewrite N. Qed.

Lemma hasCode_object key code entry :
  hasCode key code entry = true -> truthy entry = true /\ nullish entry = false.
Proof.
  unfold hasCode. destruct entry; cbn; try discriminate; try (now split);
    destruct (key =? "length"); discriminate.
Qed.

Lemma arrayFind_passed key code before : forall rest,
  Forall (passedOver key code) before ->
  arrayFind (codeIs key code) (before ++ rest) = arrayFind (codeIs key code) rest.
Proof.
  induction before as [|x before IH]; intros rest F; [reflexivity|].
  inversion F as [|? ? [N H] F']; subst. cbn [app arrayFind].
  rewrite (codeIs_readable key code x N), H. cbn [bindC]. now apply IH.
Qed.

Lemma arrayFind_first key code entries entry :
  firstWith key code entries entry -> arrayFind (codeIs key code) entries = Normal entry.
Proof.
  intros (before & after & -> & F & N & H).
  rewrite (arrayFind_passed key code before _ F). cbn [arrayFind].
  now rewrite (codeIs_readable key code entry N), H.
Qed.

Lemma arrayFind_none key code entries :
  noneWith key code entries -> arrayFind (codeIs key code) entries = Normal JUndefined.
Proof.
  intros F. rewrite <- (app_nil_r entries). now rewrite (arrayFind_passed key code entries [] F).
Qed.

Lemma arrayFind_fault key code entries :
  faultsBefore key code entries -> arrayFind (codeIs key code) entries = Throw TypeError.
Proof.
  intros (before & after & entry & -> & F & N).
  rewrite (arrayFind_passed key code before _ F). cbn [arrayFind].
  now rewrite (codeIs_nullish key code entry N).
Qed.

(** A scan ends in exactly one of three ways. *)
Lemma scan_cases key code entries :
  (exists entry, firstWith key code entries entry)
  \/ noneWith key code entries
  \/ faultsBefore key code entries.
Proof.
  induction entries as [|x rest IH].
  - right; left. constructor.
  - destruct (nullish x) eqn:N.
    + right; right. exists [], rest, x. repeat split; [constructor | exact N].
    + destruct (hasCode key code x) eqn:H.
      * left. exists x, [], rest. repeat split; [constructor | exact N | exact H].
      * destruct IH as [(e & before & after & -> & F & Ne & He) | [F | (before & after & e & -> & F & Ne)]].
        -- left. exists e, (x :: before), after. repeat split; auto.
           constructor; [now split | exact F].
        -- right; left. constructor; [now split | exact F].
        -- right; right. exists (x :: before), after, e. repeat split; auto.
           constructor; [now split | exact F].
Qed.

Lemma arrayFind_Normal_truthy key code entries x :
  arrayFind (codeIs key code) entries = Normal x -> truthy x = true ->
  firstWith key code entries x.
Proof.
  intros E T.
  destruct (scan_cases key code entries) as [(e & Fw) | [F | F]].
  - rewrite (arrayFind_first _ _ _ _ Fw) in E. now injection E as <-.
  - rewrite (arrayFind_none _ _ _ F) in E. injection E as <-. discriminate T.
  - rewrite (arrayFind_fault _ _ _ F) in E. discriminate E.
Qed.

Lemma arrayFind_Normal_falsy key code entries x :
  arrayFind (codeIs key code) entries = Normal x -> truthy x = false ->
  noneWith key code entries.
Proof.
  intros E T.
  destruct (scan_cases key code entries) as [(e & Fw) | [F | F]].
  - rewrite (arrayFind_first _ _ _ _ Fw) in E. injection E as <-.
    destruct Fw as (_ & _ & _ & _ & _ & H). apply hasCode_object in H. destruct H; congruence.
  - exact F.
  - rewrite (arrayFind_fault _ _ _ F) in E. discriminate E.
Qed.

Lemma arrayFind_Throw key code entries e :
  arrayFind (codeIs key code) entries = Throw e -> faultsBefore key code entries.
Proof.
  intros E.
  destruct (scan_cases key code entries) as [(x & Fw) | [F | F]].
  - rewrite (arrayFind_first _ _ _ _ Fw) in E. discriminate E.
  - rewrite (arrayFind_none _ _ _ F) in E. discriminate E.
  - exact F.
Qed.

Lemma firstWith_truthy key code entries entry :
  firstWith key code entries entry -> truthy entry = true.
Proof. intros (_ & _ & _ & _ & _ & H). now apply hasCode_object in H. Qed.

(** ** Each group on a fresh validator *)

Lemma root_fresh doc :
  nullish doc = false ->
  _validateRoot (new_TEIFValidator doc)
  = (Normal tt,
     {| invoice := doc;
        errors := (if strictEq (getOwn doc "version") "2.0" then [] else [Msg.version])
                  ++ (if strictEq (getOwn doc "controlingAgency") "TTN" then []
                      else [Msg.agency]) |}).
Proof.
  intros N. unfold _validateRoot, bind, thisInvoice, lift, new_TEIFValidator.
  cbn [invoice errors]. rewrite !(get_not_nullish doc _ N).
  destruct (strictEq (getOwn doc "version") "2.0");
    cbn [negb when _addError ret invoice errors app];
    rewrite (get_not_nullish doc _ N);
    destruct (strictEq (getOwn doc "controlingAgency") "TTN"); reflexivity.
Qed.

Lemma header_absent doc :
  nullish doc = false -> truthy (getOwn doc "InvoiceHeader") = false ->
  forall engine : Engine,
  _validateHeader (new_TEIFValidator doc)
  = (Normal tt, {| invoice := doc; errors := [Msg.headerMissing] |}).
Proof.
  intros N T engine. unfold _validateHeader, bind, thisInvoice, lift, new_TEIFValidator.
  cbn [invoice errors]. rewrite (get_not_nullish doc _ N), T. reflexivity.
Qed.

Lemma bgm_fresh doc :
  nullish doc = false ->
  _validateBgmAndDtm (new_TEIFValidator doc)
  = (match callFindOpt (getOwn doc "Dtm") (codeIs "functionCode" "I-31") with
     | Normal _ => Normal tt
     | Throw e => Throw e
     end,
     {| invoice := doc;
        errors :=
          (if negb (truthy (getOwn doc "Bgm"))
              || negb (truthy (getOwn (getOwn doc "Bgm") "DocumentIdentifier"))
           then [Msg.documentIdentifier] else [])
          ++ (if strictEq (getOpt (getOpt (getOwn doc "Bgm") "DocumentType") "code") "I-11"
              then [] else [Msg.documentType])
          ++ match callFindOpt (getOwn doc "Dtm") (codeIs "functionCode" "I-31") with
             | Normal found => if truthy found then [] else [Msg.issueDate]
             | Throw _ => []
             end |}).
Proof.
  intros N. unfold _validateBgmAndDtm, bind, thisInvoice, lift, new_TEIFValidator, notOr.
  cbn [invoice errors]. rewrite !(get_not_nullish doc _ N).
  change (fun d : Value => f <~ get d "functionCode";; Normal (strictEq f "I-31"))
    with (codeIs "functionCode" "I-31").
  destruct (truthy (getOwn doc "Bgm")) eqn:T; cbn [negb orb].
  - rewrite (get_not_nullish _ "DocumentIdentifier" (truthy_not_nullish _ T)). cbn [bindC].
    destruct (truthy (getOwn (getOwn doc "Bgm") "DocumentIdentifier")); cbn [negb when];
      destruct (strictEq _ "I-11"); cbn [negb when];
      destruct (callFindOpt _ _) as [found|e]; try reflexivity;
      destruct (truthy found); reflexivity.
  - destruct (strictEq _ "I-11"); cbn [negb when];
      destruct (callFindOpt _ _) as [found|e]; try reflexivity;
      destruct (truthy found); reflexivity.
Qed.

Lemma partnerIncomplete_readable p :
  nullish p = false -> partnerIncomplete p = Normal (negb (partnerComplete p)).
Proof.
  intros N. unfold partnerIncomplete, partnerComplete, notOr.
  rewrite !(get_not_nullish p _ N). cbn [bindC].
  destruct (truthy (getOpt (getOpt (getOwn p "Nad") "PartnerIdentifier") "value"));
    reflexivity.
Qed.

Lemma role_block found required incomplete this :
  (if negb (truthy found) then _addError required
   else incompleteb <- lift (partnerIncomplete found) ;;
        when incompleteb (_addError incomplete)) this
  = (Normal tt,
     {| invoice := invoice this;
        errors := errors this ++ roleViolations found required incomplete |}).
Proof.
  unfold roleViolations. destruct (truthy found) eqn:T; cbn [negb]; [|reflexivity].
  unfold bind, lift. rewrite (partnerIncomplete_readable _ (truthy_not_nullish _ T)).
  destruct (partnerComplete found); cbn [negb when]; [|reflexivity].
  unfold ret. rewrite app_nil_r. now destruct this.
Qed.

Lemma partners_unusable doc :
  nullish doc = false ->
  negb (truthy (partnersOf doc)) || negb (isArray (partnersOf doc))
  || (arrayLength (partnersOf doc) <? 2)%nat = true ->
  _validatePartners (new_TEIFValidator doc)
  = (Normal tt, {| invoice := doc; errors := [Msg.partners] |}).
Proof.
  intros N G. unfold _validatePartners, bind, thisInvoice, lift, new_TEIFValidator.
  cbn [invoice errors]. rewrite (get_not_nullish doc _ N). cbv zeta.
  unfold partnersOf in G. rewrite G. reflexivity.
Qed.

Lemma partners_usable doc entries :
  nullish doc = false -> partnersOf doc = JArray entries -> 2 <= length entries ->
  _validatePartners (new_TEIFValidator doc)
  = match arrayFind (codeIs "functionCode" "I-62") entries with
    | Throw e => (Throw e, {| invoice := doc; errors := [] |})
    | Normal supplier =>
        match arrayFind (codeIs "functionCode" "I-61") entries with
        | Throw e =>
            (Throw e,
             {| invoice := doc;
                errors := roleViolations supplier Msg.supplierRequired
                            Msg.supplierIncomplete |})
        | Normal buyer =>
            (Normal tt,
             {| invoice := doc;
                errors := roleViolations supplier Msg.supplierRequired
                            Msg.supplierIncomplete
                          ++ roleViolations buyer Msg.buyerRequired Msg.buyerIncomplete |})
        end
    end.
Proof.
  intros N P L. unfold _validatePartners.
  unfold bind at 1. unfold thisInvoice. unfold bind at 1. unfold lift at 1.
  unfold new_TEIFValidator. cbn [invoice errors].
  rewrite (get_not_nullish doc _ N). cbv zeta.
  unfold partnersOf in P. rewrite P. cbn [truthy isArray arrayLength negb orb callFind].
  assert (G : (length entries <? 2)%nat = false) by (apply Nat.ltb_ge; exact L).
  rewrite G.
  change (fun p : Value => f <~ get p "functionCode";; Normal (strictEq f "I-62"))
    with (codeIs "functionCode" "I-62").
  change (fun p : Value => f <~ get p "functionCode";; Normal (strictEq f "I-61"))
    with (codeIs "functionCode" "I-61").
  unfold bind at 1. unfold lift at 1.
  destruct (arrayFind (codeIs "functionCode" "I-62") entries) as [supplier|e]; [|reflexivity].
  unfold bind at 1. rewrite role_block. cbn [invoice errors app].
  unfold bind at 1. unfold lift at 1.
  destruct (arrayFind (codeIs "functionCode" "I-61") entries) as [buyer|e]; [|reflexivity].
  rewrite role_block. reflexivity.
Qed.

Lemma lines_unusable doc :
  nullish doc = false ->
  negb (truthy (linesOf doc)) || negb (isArray (linesOf doc))
  || (arrayLength (linesOf doc) =? 0)%nat = true ->
  _validateLines (new_TEIFValidator doc)
  = (Normal tt, {| invoice := doc; errors := [Msg.lines] |}).
Proof.
  intros N G. unfold _validateLines, bind, thisInvoice, lift, new_TEIFValidator.
  cbn [invoice errors]. rewrite (get_not_nullish doc _ N). cbv zeta.
  unfold linesOf in G. rewrite G. reflexivity.
Qed.

Lemma lines_usable doc lines :
  nullish doc = false -> linesOf doc = JArray lines -> lines <> [] ->
  _validateLines (new_TEIFValidator doc)
  = (if forallb (fun line => negb (nullish line)) lines then Normal tt else Throw TypeError,
     {| invoice := doc; errors := violationsFrom 0 (readable lines) |}).
Proof.
  intros N P NE.
  rewrite (validateLines_nonempty (new_TEIFValidator doc) (getOwn doc "LinSection") lines);
    [|apply (get_not_nullish doc _ N)|exact P|exact NE].
  now rewrite forEachFrom_lines.
Qed.

Lemma totals_unusable doc :
  nullish doc = false ->
  negb (truthy (amountsOf doc)) || negb (isArray (amountsOf doc)) = true ->
  _validateTotals (new_TEIFValidator doc)
  = (Normal tt, {| invoice := doc; errors := [Msg.amounts] |}).
Proof.
  intros N G. unfold _validateTotals, bind, thisInvoice, lift, new_TEIFValidator.
  cbn [invoice errors]. rewrite (get_not_nullish doc _ N). cbv zeta.
  unfold amountsOf in G. rewrite G. reflexivity.
Qed.

Lemma totals_usable doc amounts :
  nullish doc = false -> amountsOf doc = JArray amounts ->
  _validateTotals (new_TEIFValidator doc)
  = match arrayFind (codeIs "amountTypeCode" "I-176") amounts with
    | Throw e => (Throw e, {| invoice := doc; errors := [] |})
    | Normal totalHT =>
        match arrayFind (codeIs "amountTypeCode" "I-180") amounts with
        | Throw e =>
            (Throw e,
             {| invoice := doc;
                errors := if truthy totalHT then [] else [Msg.totalHT] |})
        | Normal totalTTC =>
            (Normal tt,
             {| invoice := doc;
                errors :=
                  (if truthy totalHT then [] else [Msg.totalHT])
                  ++ (if truthy totalTTC then [] else [Msg.totalTTC])
                  ++ (if truthy (getOwn doc "InvoiceTax")
                      then (if strictEq (getOwn (getOwn doc "InvoiceTax") "TaxTypeCode")
                                        "I-1602"
                            then [] else [Msg.taxType])
                      else [Msg.taxMissing]) |})
        end
    end.
Proof.
  intros N P. unfold _validateTotals, bind, thisInvoice, lift, new_TEIFValidator.
  cbn [invoice errors]. rewrite !(get_not_nullish doc _ N). cbv zeta.
  unfold amountsOf in P. rewrite P. cbn [truthy isArray negb orb callFind].
  change (fun a : Value => c <~ get a "amountTypeCode";; Normal (strictEq c "I-176"))
    with (codeIs "amountTypeCode" "I-176").
  change (fun a : Value => c <~ get a "amountTypeCode";; Normal (strictEq c "I-180"))
    with (codeIs "amountTypeCode" "I-180").
  destruct (arrayFind (codeIs "amountTypeCode" "I-176") amounts) as [ht|e]; [|reflexivity].
  destruct (truthy ht); cbn [negb when _addError ret invoice errors app];
    (destruct (arrayFind (codeIs "amountTypeCode" "I-180") amounts) as [ttc|e];
     [|reflexivity]);
    destruct (truthy ttc); cbn [negb when _addError ret invoice errors app];
    rewrite ?(get_not_nullish doc _ N);
    (destruct (truthy (getOwn doc "InvoiceTax")) eqn:T; cbn [negb]; [|reflexivity]);
    rewrite (get_not_nullish _ "TaxTypeCode" (truthy_not_nullish _ T));
    destruct (strictEq _ "I-1602"); reflexivity.
Qed.

(** ** Reports, group by group *)

Lemma root_nullish doc :
  nullish doc = true -> outcome _validateRoot doc = Throw TypeError.
Proof.
  intros N. unfold outcome, _validateRoot, bind, thisInvoice, lift, new_TEIFValidator, get.
  cbn [invoice]. now rewrite N.
Qed.

Lemma strictEq_eq v lit : strictEq v lit = true <-> v = JString lit.
Proof.
  destruct v; cbn; try (split; [discriminate | intros [=]]).
  rewrite String.eqb_eq. split; [now intros -> | now intros [= ->]].
Qed.

Lemma strictEq_neq v lit : strictEq v lit = false <-> v <> JString lit.
Proof.
  rewrite <- strictEq_eq. destruct (strictEq v lit); split; congruence.
Qed.

Section Reports.
Context {engine : Engine}.

(** A returned report: no group threw, the document can be read, and the
    errors are the groups' messages in call order. *)
Lemma report_groups this report :
  fst (validate this) = Normal report ->
  nullish (invoice this) = false
  /\ outcome _validateRoot (invoice this) = Normal tt
  /\ outcome _validateHeader (invoice this) = Normal tt
  /\ outcome _validateBgmAndDtm (invoice this) = Normal tt
  /\ outcome _validatePartners (invoice this) = Normal tt
  /\ outcome _validateLines (invoice this) = Normal tt
  /\ outcome _validateTotals (invoice this) = Normal tt
  /\ report = reportOf (recorded _validateRoot (invoice this)
                        ++ recorded _validateHeader (invoice this)
                        ++ recorded _validateBgmAndDtm (invoice this)
                        ++ recorded _validatePartners (invoice this)
                        ++ recorded _validateLines (invoice this)
                        ++ recorded _validateTotals (invoice this)).
Proof.
  rewrite validate_eq.
  destruct (outcome runGroups (invoice this)) as [[]|e] eqn:O; cbn [fst]; [|discriminate].
  intros [= <-].
  destruct (runGroups_outcomes _ _ O) as (O1 & O2 & O3 & O4 & O5 & O6).
  destruct (runGroups_normal _ O1 O2 O3 O4 O5 O6) as [_ ->].
  repeat split; auto.
  destruct (nullish (invoice this)) eqn:N; [|reflexivity].
  rewrite (root_nullish _ N) in O1. discriminate O1.
Qed.

Lemma groups_report this :
  outcome _validateRoot (invoice this) = Normal tt ->
  outcome _validateHeader (invoice this) = Normal tt ->
  outcome _validateBgmAndDtm (invoice this) = Normal tt ->
  outcome _validatePartners (invoice this) = Normal tt ->
  outcome _validateLines (invoice this) = Normal tt ->
  outcome _validateTotals (invoice this) = Normal tt ->
  fst (validate this)
  = Normal (reportOf (recorded _validateRoot (invoice this)
                      ++ recorded _validateHeader (invoice this)
                      ++ recorded _validateBgmAndDtm (invoice this)
                      ++ recorded _validatePartners (invoice this)
                      ++ recorded _validateLines (invoice this)
                      ++ recorded _validateTotals (invoice this))).
Proof.
  intros O1 O2 O3 O4 O5 O6. rewrite validate_eq.
  destruct (runGroups_normal _ O1 O2 O3 O4 O5 O6) as [-> ->]. reflexivity.
Qed.

End Reports.

(** Two prefixes of one string: one is a prefix of the other. *)
Lemma startsWith_comparable a : forall b m,
  startsWith a m = true -> startsWith b m = true ->
  startsWith a b = true \/ startsWith b a = true.
Proof.
  induction a as [|x a IH]; intros b m Ha Hb; [now left|].
  destruct b as [|y b]; [now right|].
  destruct m as [|z m]; [discriminate Ha|].
  cbn in Ha, Hb |- *.
  apply andb_true_iff in Ha, Hb. destruct Ha as [Ea Ha], Hb as [Eb Hb].
  apply Ascii.eqb_eq in Ea, Eb. subst y z.
  rewrite Ascii.eqb_refl. cbn. now apply (IH b m).
Qed.

Lemma taggedb_disjoint (tags others : list string) message :
  forallb (fun t => forallb (fun o => negb (startsWith t o) && negb (startsWith o t)) others)
          tags = true ->
  taggedb tags message = true -> taggedb others message = false.
Proof.
  intros D T. unfold taggedb in *.
  apply existsb_exists in T. destruct T as (t & Ht & St).
  destruct (existsb (fun o => startsWith o message) others) eqn:E; [|reflexivity].
  apply existsb_exists in E. destruct E as (o & Ho & So).
  rewrite forallb_forall in D. specialize (D t Ht).
  rewrite forallb_forall in D. specialize (D o Ho).
  apply andb_true_iff in D. destruct D as [D1 D2].
  destruct (startsWith_comparable t o message St So) as [C|C]; rewrite C in *; discriminate.
Qed.

Lemma filter_tagged_all tags (l : list string) :
  Forall (tagged tags) l -> filter (taggedb tags) l = l.
Proof.
  induction 1 as [|m l T _ IH]; cbn; [reflexivity|].
  unfold tagged in T. unfold taggedb at 1. now rewrite T, IH.
Qed.

Lemma filter_tagged_none tags others (l : list string) :
  forallb (fun t => forallb (fun o => negb (startsWith t o) && negb (startsWith o t)) others)
          tags = true ->
  Forall (tagged tags) l -> filter (taggedb others) l = [].
Proof.
  intros D. induction 1 as [|m l T _ IH]; cbn; [reflexivity|].
  now rewrite (taggedb_disjoint tags others m D T), IH.
Qed.

Lemma recorded_tagged {A} P (m : M A) doc : emits P m -> Forall P (recorded m doc).
Proof. intros E. exact (proj2 (E (new_TEIFValidator doc))). Qed.

(** ** The groups read their own fields only *)

Lemma partners_cases doc :
  negb (truthy (partnersOf doc)) || negb (isArray (partnersOf doc))
  || (arrayLength (partnersOf doc) <? 2)%nat = true
  \/ exists entries, partnersOf doc = JArray entries /\ 2 <= length entries.
Proof.
  destruct (partnersOf doc) as [| |b|n|s|entries|props];
    try (left; cbn; rewrite ?orb_true_r; reflexivity).
  cbn. destruct (length entries <? 2)%nat eqn:L; [now left|].
  right. exists entries. split; [reflexivity | now apply Nat.ltb_ge].
Qed.

Lemma lines_cases doc :
  negb (truthy (linesOf doc)) || negb (isArray (linesOf doc))
  || (arrayLength (linesOf doc) =? 0)%nat = true
  \/ exists lines, linesOf doc = JArray lines /\ lines <> [].
Proof.
  destruct (linesOf doc) as [| |b|n|s|lines|props];
    try (left; cbn; rewrite ?orb_true_r; reflexivity).
  destruct lines as [|l rest]; [now left|].
  right. exists (l :: rest). split; [reflexivity | discriminate].
Qed.

Lemma totals_cases doc :
  negb (truthy (amountsOf doc)) || negb (isArray (amountsOf doc)) = true
  \/ exists amounts, amountsOf doc = JArray amounts.
Proof.
  destruct (amountsOf doc) as [| |b|n|s|amounts|props];
    try (left; cbn; rewrite ?orb_true_r; reflexivity).
  right. now exists amounts.
Qed.

Section Fields.
Context {engine : Engine}.

Lemma header_fresh doc :
  nullish doc = false ->
  _validateHeader (new_TEIFValidator doc)
  = if truthy (getOwn doc "InvoiceHeader") then
      let sender := partyCheck (getOwn (getOwn doc "InvoiceHeader") "MessageSenderIdentifier")
                      Msg.senderMissing Msg.senderFormat in
      let receiver := partyCheck (getOwn (getOwn doc "InvoiceHeader")
                                    "MessageReceiverIdentifier")
                        Msg.receiverMissing Msg.receiverFormat in
      match fst sender with
      | Normal _ =>
          (fst receiver, {| invoice := doc; errors := snd sender ++ snd receiver |})
      | Throw e => (Throw e, {| invoice := doc; errors := snd sender |})
      end
    else (Normal tt, {| invoice := doc; errors := [Msg.headerMissing] |}).
Proof.
  intros N. destruct (truthy (getOwn doc "InvoiceHeader")) eqn:T.
  - rewrite (header_present (new_TEIFValidator doc) (getOwn doc "InvoiceHeader"));
      [reflexivity | apply (get_not_nullish doc _ N) | exact T].
  - now apply header_absent.
Qed.

Lemma root_reads_own_fields d1 d2 :
  nullish d1 = false -> nullish d2 = false ->
  getOwn d1 "version" = getOwn d2 "version" ->
  getOwn d1 "controlingAgency" = getOwn d2 "controlingAgency" ->
  outcome _validateRoot d1 = outcome _validateRoot d2
  /\ recorded _validateRoot d1 = recorded _validateRoot d2.
Proof.
  intros N1 N2 V A. unfold outcome, recorded.
  rewrite (root_fresh d1 N1), (root_fresh d2 N2), V, A. split; reflexivity.
Qed.

Lemma header_reads_own_fields d1 d2 :
  nullish d1 = false -> nullish d2 = false ->
  getOwn d1 "InvoiceHeader" = getOwn d2 "InvoiceHeader" ->
  outcome _validateHeader d1 = outcome _validateHeader d2
  /\ recorded _validateHeader d1 = recorded _validateHeader d2.
Proof.
  intros N1 N2 H. unfold outcome, recorded.
  rewrite (header_fresh d1 N1), (header_fresh d2 N2), H. cbv zeta.
  destruct (truthy (getOwn d2 "InvoiceHeader")); [|split; reflexivity].
  destruct (fst (partyCheck _ Msg.senderMissing Msg.senderFormat)); split; reflexivity.
Qed.

Lemma bgm_reads_own_fields d1 d2 :
  nullish d1 = false -> nullish d2 = false ->
  getOwn d1 "Bgm" = getOwn d2 "Bgm" -> getOwn d1 "Dtm" = getOwn d2 "Dtm" ->
  outcome _validateBgmAndDtm d1 = outcome _validateBgmAndDtm d2
  /\ recorded _validateBgmAndDtm d1 = recorded _validateBgmAndDtm d2.
Proof.
  intros N1 N2 B D. unfold outcome, recorded.
  rewrite (bgm_fresh d1 N1), (bgm_fresh d2 N2), B, D. split; reflexivity.
Qed.

Lemma partners_reads_own_fields d1 d2 :
  nullish d1 = false -> nullish d2 = false ->
  getOwn d1 "PartnerSection" = getOwn d2 "PartnerSection" ->
  outcome _validatePartners d1 = outcome _validatePartners d2
  /\ recorded _validatePartners d1 = recorded _validatePartners d2.
Proof.
  intros N1 N2 P.
  assert (E : partnersOf d1 = partnersOf d2) by (unfold partnersOf; now rewrite P).
  unfold outcome, recorded.
  destruct (partners_cases d2) as [G|(entries & A & L)].
  - rewrite (partners_unusable d2 N2 G). rewrite <- E in G.
    rewrite (partners_unusable d1 N1 G). split; reflexivity.
  - rewrite (partners_usable d2 entries N2 A L). rewrite <- E in A.
    rewrite (partners_usable d1 entries N1 A L).
    destruct (arrayFind (codeIs "functionCode" "I-62") entries); [|split; reflexivity].
    destruct (arrayFind (codeIs "functionCode" "I-61") entries); split; reflexivity.
Qed.

Lemma lines_reads_own_fields d1 d2 :
  nullish d1 = false -> nullish d2 = false ->
  getOwn d1 "LinSection" = getOwn d2 "LinSection" ->
  outcome _validateLines d1 = outcome _validateLines d2
  /\ recorded _validateLines d1 = recorded _validateLines d2.
Proof.
  intros N1 N2 P.
  assert (E : linesOf d1 = linesOf d2) by (unfold linesOf; now rewrite P).
  unfold outcome, recorded.
  destruct (lines_cases d2) as [G|(lines & A & L)].
  - rewrite (lines_unusable d2 N2 G). rewrite <- E in G.
    rewrite (lines_unusable d1 N1 G). split; reflexivity.
  - rewrite (lines_usable d2 lines N2 A L). rewrite <- E in A.
    rewrite (lines_usable d1 lines N1 A L). split; reflexivity.
Qed.

Lemma totals_reads_own_fields d1 d2 :
  nullish d1 = false -> nullish d2 = false ->
  getOwn d1 "InvoiceMoa" = getOwn d2 "InvoiceMoa" ->
  getOwn d1 "InvoiceTax" = getOwn d2 "InvoiceTax" ->
  outcome _validateTotals d1 = outcome _validateTotals d2
  /\ recorded _validateTotals d1 = recorded _validateTotals d2.
Proof.
  intros N1 N2 P T.
  assert (E : amountsOf d1 = amountsOf d2) by (unfold amountsOf; now rewrite P).
  unfold outcome, recorded.
  destruct (totals_cases d2) as [G|(amounts & A)].
  - rewrite (totals_unusable d2 N2 G). rewrite <- E in G.
    rewrite (totals_unusable d1 N1 G). split; reflexivity.
  - rewrite (totals_usable d2 amounts N2 A). rewrite <- E in A.
    rewrite (totals_usable d1 amounts N1 A), T.
    destruct (arrayFind (codeIs "amountTypeCode" "I-176") amounts); [|split; reflexivity].
    destruct (arrayFind (codeIs "amountTypeCode" "I-180") amounts); split; reflexivity.
Qed.

(** The messages of one group in a report, picked by their tags. *)
Lemma report_by_tags this report :
  fst (validate this) = Normal report ->
  filter (taggedb ["Root: "]) (Report.errors report)
  = recorded _validateRoot (invoice this)
  /\ filter (taggedb ["Structure: "; "Header: "]) (Report.errors report)
     = recorded _validateHeader (invoice this)
  /\ filter (taggedb ["Body: "]) (Report.errors report)
     = recorded _validateBgmAndDtm (invoice this)
  /\ filter (taggedb ["Partners: "]) (Report.errors report)
     = recorded _validatePartners (invoice this)
  /\ filter (taggedb ["Lines: "; "Line "]) (Report.errors report)
     = recorded _validateLines (invoice this)
  /\ filter (taggedb ["Totals: "; "Tax: "]) (Report.errors report)
     = recorded _validateTotals (invoice this).
Proof.
  intros R. destruct (report_groups this report R) as (_ & _ & _ & _ & _ & _ & _ & ->).
  cbn [Report.errors reportOf].
  pose proof (recorded_tagged _ _ (invoice this) emits_validateRoot) as T1.
  pose proof (recorded_tagged _ _ (invoice this) emits_validateHeader) as T2.
  pose proof (recorded_tagged _ _ (invoice this) emits_validateBgmAndDtm) as T3.
  pose proof (recorded_tagged _ _ (invoice this) emits_validatePartners) as T4.
  pose proof (recorded_tagged _ _ (invoice this) emits_validateLines) as T5.
  pose proof (recorded_tagged _ _ (invoice this) emits_validateTotals) as T6.
  rewrite !filter_app.
  repeat split;
    repeat match goal with
      | |- context [filter (taggedb ?tags) (recorded ?g ?d)] =>
          first
            [ rewrite (filter_tagged_all tags (recorded g d)) by assumption
            | match goal with
              | T : Forall (tagged ?own) (recorded g d) |- _ =>
                  rewrite (filter_tagged_none own tags (recorded g d) eq_refl T)
              end ]
      end;
    now rewrite ?app_nil_r.
Qed.

End Fields.

Section ReportStructure.
Context {engine : Engine}.

(** X1.  A returned report lists the messages of the six groups in call
    order, each group contributing exactly what it records when it runs
    alone on the document; after the call the validator's [errors] holds
    the same messages, in the same order, as the report.  (Arrays are
    lists here: that the report and the validator share one array object
    is not expressed.) *)
Theorem report_lists_groups_in_order this report :
  fst (validate this) = Normal report ->
  Report.errors report
  = (recorded _validateRoot (invoice this)
     ++ recorded _validateHeader (invoice this)
     ++ recorded _validateBgmAndDtm (invoice this)
     ++ recorded _validatePartners (invoice this)
     ++ recorded _validateLines (invoice this)
     ++ recorded _validateTotals (invoice this))%list
  /\ errors (snd (validate this)) = Report.errors report.
Proof.
  intros R. destruct (report_groups this report R) as (_ & _ & _ & _ & _ & _ & _ & E).
  split; [now rewrite E|].
  revert R. rewrite validate_eq.
  destruct (outcome runGroups (invoice this)) as [[]|e]; cbn; [|discriminate].
  now intros [= <-].
Qed.

(** X2.  After any call of [validate], returned or thrown, every message
    in the validator's [errors] array begins with the tag of a group. *)
Theorem validate_messages_tagged this :
  Forall (tagged groupTags) (errors (snd (validate this))).
Proof.
  rewrite validate_eq.
  pose proof (recorded_tagged _ _ (invoice this) emits_runGroups) as T.
  now destruct (outcome runGroups (invoice this)).
Qed.

(** X3.  The messages of a group in a report depend on the fields of its
    own group only: two documents that agree on them get the same
    messages with the group's tags, whatever else differs. *)
Theorem groups_are_independent d1 d2 r1 r2 :
  fst (validate (new_TEIFValidator d1)) = Normal r1 ->
  fst (validate (new_TEIFValidator d2)) = Normal r2 ->
  (getOwn d1 "version" = getOwn d2 "version" ->
   getOwn d1 "controlingAgency" = getOwn d2 "controlingAgency" ->
   filter (taggedb ["Root: "]) (Report.errors r1)
   = filter (taggedb ["Root: "]) (Report.errors r2))
  /\ (getOwn d1 "InvoiceHeader" = getOwn d2 "InvoiceHeader" ->
      filter (taggedb ["Structure: "; "Header: "]) (Report.errors r1)
      = filter (taggedb ["Structure: "; "Header: "]) (Report.errors r2))
  /\ (getOwn d1 "Bgm" = getOwn d2 "Bgm" -> getOwn d1 "Dtm" = getOwn d2 "Dtm" ->
      filter (taggedb ["Body: "]) (Report.errors r1)
      = filter (taggedb ["Body: "]) (Report.errors r2))
  /\ (getOwn d1 "PartnerSection" = getOwn d2 "PartnerSection" ->
      filter (taggedb ["Partners: "]) (Report.errors r1)
      = filter (taggedb ["Partners: "]) (Report.errors r2))
  /\ (getOwn d1 "LinSection" = getOwn d2 "LinSection" ->
      filter (taggedb ["Lines: "; "Line "]) (Report.errors r1)
      = filter (taggedb ["Lines: "; "Line "]) (Report.errors r2))
  /\ (getOwn d1 "InvoiceMoa" = getOwn d2 "InvoiceMoa" ->
      getOwn d1 "InvoiceTax" = getOwn d2 "InvoiceTax" ->
      filter (taggedb ["Totals: "; "Tax: "]) (Report.errors r1)
      = filter (taggedb ["Totals: "; "Tax: "]) (Report.errors r2)).
Proof.
  intros R1 R2.
  destruct (report_by_tags _ _ R1) as (A1 & A2 & A3 & A4 & A5 & A6).
  destruct (report_by_tags _ _ R2) as (B1 & B2 & B3 & B4 & B5 & B6).
  destruct (report_groups _ _ R1) as (N1 & _).
  destruct (report_groups _ _ R2) as (N2 & _).
  cbn [invoice new_TEIFValidator] in *.
  rewrite A1, A2, A3, A4, A5, A6, B1, B2, B3, B4, B5, B6.
  repeat split; intros.
  - now apply root_reads_own_fields.
  - now apply header_reads_own_fields.
  - now apply bgm_reads_own_fields.
  - now apply partners_reads_own_fields.
  - now apply lines_reads_own_fields.
  - now apply totals_reads_own_fields.
Qed.

End ReportStructure.

Lemma report_lists_groups_in_order_witness :
  [Msg.lineUnitPrice 2]
  = (recorded _validateRoot negativePriceInvoice
     ++ recorded (_validateHeader (engine := sampleEngine)) negativePriceInvoice
     ++ recorded _validateBgmAndDtm negativePriceInvoice
     ++ recorded _validatePartners negativePriceInvoice
     ++ recorded _validateLines negativePriceInvoice
     ++ recorded _validateTotals negativePriceInvoice)%list
  /\ errors (snd (validate (engine := sampleEngine) (new_TEIFValidator negativePriceInvoice)))
     = [Msg.lineUnitPrice 2].
Proof.
  apply (report_lists_groups_in_order (engine := sampleEngine)
           (new_TEIFValidator negativePriceInvoice)
           {| Report.isValid := false; Report.errors := [Msg.lineUnitPrice 2] |}).
  vm_compute. reflexivity.
Defined.

Lemma groups_are_independent_witness :
  filter (taggedb ["Lines: "; "Line "]) [Msg.lineUnitPrice 2]
  = filter (taggedb ["Lines: "; "Line "])
      [Msg.senderFormat "BADID"; Msg.partners; Msg.lineUnitPrice 2; Msg.amounts].
Proof.
  refine (proj1 (proj2 (proj2 (proj2 (proj2
    (groups_are_independent (engine := sampleEngine)
       negativePriceInvoice brokenElsewhereInvoice
       {| Report.isValid := false; Report.errors := [Msg.lineUnitPrice 2] |}
       {| Report.isValid := false;
          Report.errors := [Msg.senderFormat "BADID"; Msg.partners;
                            Msg.lineUnitPrice 2; Msg.amounts] |}
       _ _))))) _); vm_compute; reflexivity.
Defined.

Lemma in_by_tag tags (l r : list string) m :
  filter (taggedb tags) l = r -> taggedb tags m = true -> (In m l <-> In m r).
Proof. intros <- T. rewrite filter_In. tauto. Qed.

Section EnvelopeMessages.
Context {engine : Engine}.

(** X4.  In a returned report the version violation is present exactly
    when [version] is not the string ["2.0"], and the agency violation
    exactly when [controlingAgency] is not the string ["TTN"]. *)
Theorem root_violations_in_report this report :
  fst (validate this) = Normal report ->
  (In Msg.version (Report.errors report)
   <-> getOwn (invoice this) "version" <> JString "2.0")
  /\ (In Msg.agency (Report.errors report)
      <-> getOwn (invoice this) "controlingAgency" <> JString "TTN").
Proof.
  intros R. destruct (report_groups _ _ R) as (N & _).
  destruct (report_by_tags _ _ R) as (F & _).
  rewrite (in_by_tag _ _ _ Msg.version F eq_refl), (in_by_tag _ _ _ Msg.agency F eq_refl).
  unfold recorded. rewrite (root_fresh _ N). cbn [snd errors].
  rewrite <- !strictEq_neq.
  destruct (strictEq (getOwn (invoice this) "version") "2.0");
    destruct (strictEq (getOwn (invoice this) "controlingAgency") "TTN");
    cbn; intuition discriminate.
Qed.

(** X5.  In a returned report the missing-header violation is present
    exactly when [InvoiceHeader] is falsy, and then it is the only message
    of the Header group; with a header, the sender (receiver) missing
    violation is present exactly when the identifier or its value is
    falsy. *)
Theorem header_violations_in_report this report :
  fst (validate this) = Normal report ->
  let header := getOwn (invoice this) "InvoiceHeader" in
  let sender := getOwn header "MessageSenderIdentifier" in
  let receiver := getOwn header "MessageReceiverIdentifier" in
  (In Msg.headerMissing (Report.errors report) <-> truthy header = false)
  /\ (truthy header = false ->
      filter (taggedb ["Structure: "; "Header: "]) (Report.errors report)
      = [Msg.headerMissing])
  /\ (In Msg.senderMissing (Report.errors report)
      <-> truthy header = true
          /\ (truthy sender = false \/ truthy (getOwn sender "value") = false))
  /\ (In Msg.receiverMissing (Report.errors report)
      <-> truthy header = true
          /\ (truthy receiver = false \/ truthy (getOwn receiver "value") = false)).
Proof.
  intros R header sender receiver.
  destruct (report_groups _ _ R) as (N & _ & O & _).
  destruct (report_by_tags _ _ R) as (_ & F & _).
  rewrite (in_by_tag _ _ _ Msg.headerMissing F eq_refl),
    (in_by_tag _ _ _ Msg.senderMissing F eq_refl),
    (in_by_tag _ _ _ Msg.receiverMissing F eq_refl), F.
  revert O. unfold outcome, recorded. rewrite (header_fresh _ N).
  fold header. fold sender. fold receiver. cbv zeta.
  destruct (truthy header) eqn:T.
  - unfold partyCheck.
    destruct (truthy sender), (truthy (getOwn sender "value")); cbn [negb orb fst snd];
      try destruct (ToString (getOwn sender "value")) as [s1|e1]; cbn [fst snd];
      try (intros O; discriminate O);
      try destruct (test taxIdRegex s1);
      destruct (truthy receiver), (truthy (getOwn receiver "value")); cbn [negb orb fst snd];
      try destruct (ToString (getOwn receiver "value")) as [s2|e2]; cbn [fst snd];
      try (intros O; discriminate O);
      try destruct (test taxIdRegex s2);
      intros _; cbn; intuition (discriminate || congruence).
  - intros _. cbn. intuition (discriminate || congruence).
Qed.

End EnvelopeMessages.

Lemma callFindOpt_cases key code dtm :
  (nullish dtm = true /\ callFindOpt dtm (codeIs key code) = Normal JUndefined)
  \/ (exists entries, dtm = JArray entries
                      /\ callFindOpt dtm (codeIs key code) = arrayFind (codeIs key code) entries)
  \/ (nullish dtm = false /\ isArray dtm = false
      /\ callFindOpt dtm (codeIs key code) = Throw TypeError).
Proof.
  destruct dtm as [| |b|n|s|entries|props]; cbn;
    try (left; split; reflexivity);
    try (right; right; repeat split; reflexivity).
  right; left. exists entries. split; reflexivity.
Qed.

Section BodyMessages.
Context {engine : Engine}.

(** X6.  In a returned report the three violations of the
    Document-Identification group are independent: the identifier
    violation is present exactly when [Bgm] or its [DocumentIdentifier] is
    falsy, the type violation exactly when [Bgm?.DocumentType?.code] is
    not the string ["I-11"], and the issue-date violation exactly when
    [Dtm] is [null] or [undefined] or an array without an entry of
    function code ["I-31"]. *)
Theorem bgm_violations_in_report this report :
  fst (validate this) = Normal report ->
  let bgm := getOwn (invoice this) "Bgm" in
  let dtm := getOwn (invoice this) "Dtm" in
  (In Msg.documentIdentifier (Report.errors report)
   <-> truthy bgm = false \/ truthy (getOwn bgm "DocumentIdentifier") = false)
  /\ (In Msg.documentType (Report.errors report)
      <-> getOpt (getOpt bgm "DocumentType") "code" <> JString "I-11")
  /\ (In Msg.issueDate (Report.errors report)
      <-> nullish dtm = true
          \/ exists entries, dtm = JArray entries
                             /\ noneWith "functionCode" "I-31" entries).
Proof.
  intros R bgm dtm.
  destruct (report_groups _ _ R) as (N & _ & _ & O & _).
  destruct (report_by_tags _ _ R) as (_ & _ & F & _).
  rewrite (in_by_tag _ _ _ Msg.documentIdentifier F eq_refl),
    (in_by_tag _ _ _ Msg.documentType F eq_refl),
    (in_by_tag _ _ _ Msg.issueDate F eq_refl).
  revert O. unfold outcome, recorded. rewrite (bgm_fresh _ N).
  fold bgm. fold dtm. cbn [fst snd errors]. rewrite <- strictEq_neq.
  intros O.
  assert (D : (exists found, callFindOpt dtm (codeIs "functionCode" "I-31") = Normal found
                /\ (truthy found = false <->
                    nullish dtm = true
                    \/ exists entries, dtm = JArray entries
                                       /\ noneWith "functionCode" "I-31" entries))).
  { destruct (callFindOpt_cases "functionCode" "I-31" dtm)
      as [[Nd E] | [(entries & Ed & E) | (Nd & Ad & E)]].
    - exists JUndefined. split; [exact E|]. split; [now left | reflexivity].
    - rewrite E in O |- *.
      destruct (arrayFind (codeIs "functionCode" "I-31") entries) as [found|e] eqn:Fd;
        [|discriminate O].
      exists found. split; [reflexivity|]. split.
      + intros T. right. exists entries. split; [exact Ed|].
        now apply (arrayFind_Normal_falsy _ _ _ _ Fd).
      + intros [Nd | (entries' & Ed' & Hn)].
        * rewrite Ed in Nd. discriminate Nd.
        * rewrite Ed in Ed'. injection Ed' as <-.
          rewrite (arrayFind_none _ _ _ Hn) in Fd. now injection Fd as <-.
    - rewrite E in O. discriminate O. }
  destruct D as (found & E & Hf). rewrite E. rewrite <- Hf.
  destruct (truthy bgm), (truthy (getOwn bgm "DocumentIdentifier")); cbn [negb orb];
    destruct (strictEq (getOpt (getOpt bgm "DocumentType") "code") "I-11");
    destruct (truthy found); cbn; intuition (discriminate || congruence).
Qed.

(** X7.  In a returned report the collection violation of the
    Trading-Partners group is present exactly when [PartnerDetails] is
    not an array of at least two entries.  For such an array, a role's
    required violation is present exactly when no entry has the role's
    code, and its incomplete violation exactly when the first entry with
    the code lacks an identifier value or a name value: later entries
    with the same code are not looked at. *)
Theorem partner_violations_in_report this report :
  fst (validate this) = Normal report ->
  (In Msg.partners (Report.errors report)
   <-> ~ exists entries, partnersOf (invoice this) = JArray entries /\ 2 <= length entries)
  /\ forall entries,
       partnersOf (invoice this) = JArray entries -> 2 <= length entries ->
       (In Msg.supplierRequired (Report.errors report)
        <-> noneWith "functionCode" "I-62" entries)
       /\ (In Msg.supplierIncomplete (Report.errors report)
           <-> exists supplier, firstWith "functionCode" "I-62" entries supplier
                                /\ partnerComplete supplier = false)
       /\ (In Msg.buyerRequired (Report.errors report)
           <-> noneWith "functionCode" "I-61" entries)
       /\ (In Msg.buyerIncomplete (Report.errors report)
           <-> exists buyer, firstWith "functionCode" "I-61" entries buyer
                             /\ partnerComplete buyer = false).
Proof.
  intros R.
  destruct (report_groups _ _ R) as (N & _ & _ & _ & O & _).
  destruct (report_by_tags _ _ R) as (_ & _ & _ & F & _).
  rewrite (in_by_tag _ _ _ Msg.partners F eq_refl).
  split.
  - destruct (partners_cases (invoice this)) as [G|(entries & A & L)].
    + unfold recorded. rewrite (partners_unusable _ N G). cbn [snd errors]. split.
      * intros _ (entries & A & L). rewrite A in G. cbn in G.
        apply Nat.leb_le in G. lia.
      * intros _. now left.
    + revert O. unfold outcome, recorded. rewrite (partners_usable _ entries N A L).
      destruct (arrayFind (codeIs "functionCode" "I-62") entries) as [s|e];
        [|intros O; discriminate O].
      destruct (arrayFind (codeIs "functionCode" "I-61") entries) as [b|e];
        [|intros O; discriminate O].
      intros _. cbn [snd errors]. unfold roleViolations. split.
      * intros H. exfalso.
        destruct (truthy s), (partnerComplete s), (truthy b), (partnerComplete b);
          cbn in H; intuition discriminate.
      * intros H. elim H. now exists entries.
  - intros entries A L.
    rewrite (in_by_tag _ _ _ Msg.supplierRequired F eq_refl),
      (in_by_tag _ _ _ Msg.supplierIncomplete F eq_refl),
      (in_by_tag _ _ _ Msg.buyerRequired F eq_refl),
      (in_by_tag _ _ _ Msg.buyerIncomplete F eq_refl).
    revert O. unfold outcome, recorded. rewrite (partners_usable _ entries N A L).
    destruct (arrayFind (codeIs "functionCode" "I-62") entries) as [s|e] eqn:Fs;
      [|intros O; discriminate O].
    destruct (arrayFind (codeIs "functionCode" "I-61") entries) as [b|e] eqn:Fb;
      [|intros O; discriminate O].
    intros _. cbn [snd errors]. unfold roleViolations.
    assert (Hs : forall key code found,
               arrayFind (codeIs key code) entries = Normal found ->
               (truthy found = false <-> noneWith key code entries)
               /\ (forall c, (truthy found = true /\ partnerComplete found = c)
                             <-> exists x, firstWith key code entries x
                                           /\ partnerComplete x = c)).
    { intros key code found Ff. split; [split|].
      - now apply (arrayFind_Normal_falsy _ _ _ _ Ff).
      - intros Hn. rewrite (arrayFind_none _ _ _ Hn) in Ff. now injection Ff as <-.
      - intros c. split.
        + intros [T C]. exists found. split; [|exact C].
          now apply (arrayFind_Normal_truthy _ _ _ _ Ff).
        + intros (x & Fx & C). pose proof (firstWith_truthy _ _ _ _ Fx) as T.
          rewrite (arrayFind_first _ _ _ _ Fx) in Ff. injection Ff as <-. now split. }
    destruct (Hs _ _ _ Fs) as [S1 S2]. destruct (Hs _ _ _ Fb) as [B1 B2].
    rewrite <- S1, <- B1, <- (S2 false), <- (B2 false).
    destruct (truthy s), (partnerComplete s), (truthy b), (partnerComplete b);
      cbn; intuition (discriminate || congruence).
Qed.

End BodyMessages.

Lemma violationsFrom_line_tag lines : forall index,
  Forall (fun message => startsWith "Line " message = true) (violationsFrom index lines).
Proof.
  induction lines as [|l rest IH]; intros index; cbn [violationsFrom]; [constructor|].
  apply Forall_app. split; [|apply IH].
  unfold lineViolations.
  destruct (itemMissing l), (quantityInvalid l), (unitPriceInvalid l);
    cbn [app]; repeat constructor.
Qed.

Lemma all_readable lines :
  forallb (fun line => negb (nullish line)) lines = true <->
  Forall (fun line => nullish line = false) lines.
Proof.
  rewrite forallb_forall, Forall_forall. split; intros H x Hx; specialize (H x Hx).
  - now apply negb_true_iff in H.
  - now apply negb_true_iff.
Qed.

Lemma some_unreadable lines :
  Exists (fun line => nullish line = true) lines ->
  forallb (fun line => negb (nullish line)) lines = false /\ lines <> [].
Proof.
  intros E. split.
  - destruct (forallb _ lines) eqn:F; [|reflexivity].
    apply all_readable in F. rewrite Forall_forall in F.
    apply Exists_exists in E. destruct E as (x & Hx & N).
    specialize (F x Hx). congruence.
  - intros ->. inversion E.
Qed.

Section LineAndTotalMessages.
Context {engine : Engine}.

(** X8.  In a returned report the collection violation of the
    Line-Items group is present exactly when [LinSection?.[0]?.Lin] is
    not a non-empty array, and then it is the only message of the group.
    For a non-empty array, every entry could be read and the group's
    messages are the violations of all lines, line after line. *)
Theorem line_collection_in_report this report :
  fst (validate this) = Normal report ->
  (In Msg.lines (Report.errors report)
   <-> ~ exists lines, linesOf (invoice this) = JArray lines /\ lines <> [])
  /\ ((~ exists lines, linesOf (invoice this) = JArray lines /\ lines <> []) ->
      filter (taggedb ["Lines: "; "Line "]) (Report.errors report) = [Msg.lines])
  /\ forall lines,
       linesOf (invoice this) = JArray lines -> lines <> [] ->
       Forall (fun line => nullish line = false) lines
       /\ filter (taggedb ["Lines: "; "Line "]) (Report.errors report)
          = violationsFrom 0 lines.
Proof.
  intros R.
  destruct (report_groups _ _ R) as (N & _ & _ & _ & _ & O & _).
  destruct (report_by_tags _ _ R) as (_ & _ & _ & _ & F & _).
  rewrite (in_by_tag _ _ _ Msg.lines F eq_refl), F.
  destruct (lines_cases (invoice this)) as [G|(lines & A & NE)].
  - assert (U : ~ exists lines, linesOf (invoice this) = JArray lines /\ lines <> []).
    { intros (lines & A & NE). rewrite A in G. destruct lines; [congruence | discriminate G]. }
    unfold recorded. rewrite (lines_unusable _ N G). cbn [snd errors].
    split; [|split].
    + split; [intros _; exact U | intros _; now left].
    + reflexivity.
    + intros lines A NE. elim U. now exists lines.
  - revert O. unfold outcome, recorded. rewrite (lines_usable _ lines N A NE).
    cbn [fst snd errors].
    destruct (forallb (fun line => negb (nullish line)) lines) eqn:Fa;
      [|intros O; discriminate O].
    intros _. apply all_readable in Fa.
    destruct (readable_all lines Fa) as [-> _].
    split; [|split].
    + split.
      * intros H. exfalso.
        pose proof (violationsFrom_line_tag lines 0) as T.
        rewrite Forall_forall in T. specialize (T _ H). discriminate T.
      * intros U. elim U. now exists lines.
    + intros U. elim U. now exists lines.
    + intros lines' A' _. rewrite A in A'. injection A' as <-. now split.
Qed.

(** X9.  When the line collection holds an entry that is [null] or
    [undefined], the Line-Items group throws a TypeError at that entry:
    the violations of the lines in front of it stay in the error array,
    later lines are not looked at, and [validate] returns no report. *)
Theorem unreadable_line_faults this lines :
  nullish (invoice this) = false ->
  linesOf (invoice this) = JArray lines ->
  Exists (fun line => nullish line = true) lines ->
  _validateLines this
  = (Throw TypeError,
     {| invoice := invoice this;
        errors := (errors this ++ violationsFrom 0 (readable lines))%list |})
  /\ forall report, fst (validate this) <> Normal report.
Proof.
  intros N A E. destruct (some_unreadable lines E) as [Fa NE]. split.
  - rewrite (validateLines_nonempty this (getOwn (invoice this) "LinSection") lines);
      [|apply (get_not_nullish _ _ N)|exact A|exact NE].
    now rewrite forEachFrom_lines, Fa.
  - intros report R.
    destruct (report_groups _ _ R) as (_ & _ & _ & _ & _ & O & _).
    revert O. unfold outcome. rewrite (lines_usable _ lines N A NE), Fa. discriminate.
Qed.

(** X10.  In a returned report the amounts violation is present exactly
    when [AmountDetails] is not an array, and then it is the only message
    of the Totals-and-Tax group: the tax summary is not looked at.  For
    an array, each total's violation is present exactly when no entry has
    its type code, the missing-tax violation exactly when [InvoiceTax] is
    falsy, and the tax-type violation exactly when [InvoiceTax] is truthy
    and its [TaxTypeCode] is not the string ["I-1602"]. *)
Theorem totals_violations_in_report this report :
  fst (validate this) = Normal report ->
  let tax := getOwn (invoice this) "InvoiceTax" in
  (In Msg.amounts (Report.errors report) <-> isArray (amountsOf (invoice this)) = false)
  /\ (isArray (amountsOf (invoice this)) = false ->
      filter (taggedb ["Totals: "; "Tax: "]) (Report.errors report) = [Msg.amounts])
  /\ forall amounts,
       amountsOf (invoice this) = JArray amounts ->
       (In Msg.totalHT (Report.errors report)
        <-> noneWith "amountTypeCode" "I-176" amounts)
       /\ (In Msg.totalTTC (Report.errors report)
           <-> noneWith "amountTypeCode" "I-180" amounts)
       /\ (In Msg.taxMissing (Report.errors report) <-> truthy tax = false)
       /\ (In Msg.taxType (Report.errors report)
           <-> truthy tax = true /\ getOwn tax "TaxTypeCode" <> JString "I-1602").
Proof.
  intros R tax.
  destruct (report_groups _ _ R) as (N & _ & _ & _ & _ & _ & O & _).
  destruct (report_by_tags _ _ R) as (_ & _ & _ & _ & _ & F).
  rewrite (in_by_tag _ _ _ Msg.amounts F eq_refl), F.
  destruct (totals_cases (invoice this)) as [G|(amounts & A)].
  - assert (U : isArray (amountsOf (invoice this)) = false).
    { destruct (amountsOf (invoice this)); try reflexivity. discriminate G. }
    unfold recorded. rewrite (totals_unusable _ N G). cbn [snd errors].
    split; [|split].
    + split; [intros _; exact U | intros _; now left].
    + reflexivity.
    + intros amounts A. rewrite A in U. discriminate U.
  - rewrite A. cbn [isArray].
    assert (Hs : forall code found,
               arrayFind (codeIs "amountTypeCode" code) amounts = Normal found ->
               (truthy found = false <-> noneWith "amountTypeCode" code amounts)).
    { intros code found Ff. split.
      - now apply (arrayFind_Normal_falsy _ _ _ _ Ff).
      - intros Hn. rewrite (arrayFind_none _ _ _ Hn) in Ff. now injection Ff as <-. }
    revert O. unfold outcome, recorded. rewrite (totals_usable _ amounts N A).
    fold tax.
    destruct (arrayFind (codeIs "amountTypeCode" "I-176") amounts) as [ht|e] eqn:Fh;
      [|intros O; discriminate O].
    destruct (arrayFind (codeIs "amountTypeCode" "I-180") amounts) as [ttc|e] eqn:Ft;
      [|intros O; discriminate O].
    intros _. cbn [snd errors].
    split; [|split].
    + split; [|discriminate]. intros H. exfalso.
      destruct (truthy ht), (truthy ttc), (truthy tax),
        (strictEq (getOwn tax "TaxTypeCode") "I-1602");
        cbn in H; intuition discriminate.
    + discriminate.
    + intros amounts' A'. injection A' as <-.
      rewrite (in_by_tag _ _ _ Msg.totalHT F eq_refl),
        (in_by_tag _ _ _ Msg.totalTTC F eq_refl),
        (in_by_tag _ _ _ Msg.taxMissing F eq_refl),
        (in_by_tag _ _ _ Msg.taxType F eq_refl).
      unfold recorded. rewrite (totals_usable _ amounts N A), Fh, Ft.
      fold tax. cbn [snd errors].
      rewrite <- (Hs _ _ Fh), <- (Hs _ _ Ft), <- strictEq_neq.
      destruct (truthy ht), (truthy ttc), (truthy tax),
        (strictEq (getOwn tax "TaxTypeCode") "I-1602");
        cbn; intuition (discriminate || congruence).
Qed.

End LineAndTotalMessages.

(** ** When a group is satisfied, and when it returns *)

Lemma root_accepts doc :
  nullish doc = false ->
  (outcome _validateRoot doc = Normal tt /\ recorded _validateRoot doc = [])
  <-> rootConforms doc.
Proof.
  intros N. unfold outcome, recorded, rootConforms. rewrite (root_fresh doc N).
  cbn [fst snd errors]. rewrite <- !strictEq_eq.
  destruct (strictEq (getOwn doc "version") "2.0"),
    (strictEq (getOwn doc "controlingAgency") "TTN"); cbn; intuition discriminate.
Qed.

Section Acceptance.
Context {engine : Engine}.

Lemma partyCheck_accepts party missing format :
  partyCheck party missing format = (Normal tt, []) <-> partyConforms party.
Proof.
  unfold partyCheck, partyConforms.
  destruct (truthy party), (truthy (getOwn party "value")); cbn [negb orb];
    try (split; [discriminate | intros (A & B & _); discriminate]).
  destruct (ToString (getOwn party "value")) as [str|e].
  - destruct (test taxIdRegex str) eqn:T.
    + split; [|reflexivity]. intros _. repeat split. exists str. split; [reflexivity|].
      now apply taxIdRegex_matches_format.
    + split; [discriminate|]. intros (_ & _ & s & [= <-] & Fm).
      apply taxIdRegex_matches_format in Fm. congruence.
  - split; [discriminate|]. intros (_ & _ & s & E & _). discriminate E.
Qed.

Lemma partyCheck_returns party missing format :
  fst (partyCheck party missing format) = Normal tt <-> partyConverts party.
Proof.
  unfold partyCheck, partyConverts.
  destruct (truthy party), (truthy (getOwn party "value")); cbn [negb orb fst];
    try (split; [intros _ A B; discriminate | reflexivity]).
  destruct (ToString (getOwn party "value")) as [str|e]; cbn [fst].
  - split; [|reflexivity]. intros _ _ _. now exists str.
  - split; [discriminate|]. intros H. destruct (H eq_refl eq_refl) as [s E]. discriminate E.
Qed.

Lemma header_accepts doc :
  nullish doc = false ->
  (outcome _validateHeader doc = Normal tt /\ recorded _validateHeader doc = [])
  <-> headerConforms doc.
Proof.
  intros N. unfold outcome, recorded, headerConforms. rewrite (header_fresh doc N).
  cbv zeta.
  rewrite <- (partyCheck_accepts _ Msg.senderMissing Msg.senderFormat).
  rewrite <- (partyCheck_accepts _ Msg.receiverMissing Msg.receiverFormat).
  destruct (truthy (getOwn doc "InvoiceHeader")).
  - destruct (partyCheck _ Msg.senderMissing Msg.senderFormat) as [[[]|e] ws];
      destruct (partyCheck _ Msg.receiverMissing Msg.receiverFormat) as [[[]|e'] wr];
      cbn [fst snd errors]; split;
      try (intros [A B]; try discriminate A;
           apply app_eq_nil in B; destruct B as [-> ->]; now repeat split);
      try (intros (_ & A & B); try discriminate A; try discriminate B;
           injection A as ->; injection B as ->; now split).
    all: intros [A B]; subst; discriminate.
  - cbn. split; [intros [_ A]; discriminate A | intros [A _]; discriminate A].
Qed.

Lemma header_returns doc :
  nullish doc = false ->
  outcome _validateHeader doc = Normal tt
  <-> (truthy (getOwn doc "InvoiceHeader") = true ->
       partyConverts (getOwn (getOwn doc "InvoiceHeader") "MessageSenderIdentifier")
       /\ partyConverts (getOwn (getOwn doc "InvoiceHeader") "MessageReceiverIdentifier")).
Proof.
  intros N. unfold outcome. rewrite (header_fresh doc N). cbv zeta.
  rewrite <- (partyCheck_returns _ Msg.senderMissing Msg.senderFormat).
  rewrite <- (partyCheck_returns _ Msg.receiverMissing Msg.receiverFormat).
  destruct (truthy (getOwn doc "InvoiceHeader")).
  - destruct (fst (partyCheck _ Msg.senderMissing Msg.senderFormat)) as [[]|e];
      cbn [fst]; split.
    + intros H _. now split.
    + intros H. now destruct (H eq_refl).
    + discriminate.
    + intros H. destruct (H eq_refl) as [A _]. discriminate A.
  - cbn. split; [discriminate | reflexivity].
Qed.

End Acceptance.

Lemma scan_returns key code entries :
  (exists found, arrayFind (codeIs key code) entries = Normal found)
  <-> ~ faultsBefore key code entries.
Proof.
  split.
  - intros [found E] Hf. rewrite (arrayFind_fault _ _ _ Hf) in E. discriminate E.
  - intros H. destruct (arrayFind (codeIs key code) entries) as [found|e] eqn:E.
    + now exists found.
    + elim H. now apply (arrayFind_Throw _ _ _ e).
Qed.

Lemma bgm_accepts doc :
  nullish doc = false ->
  (outcome _validateBgmAndDtm doc = Normal tt /\ recorded _validateBgmAndDtm doc = [])
  <-> bgmConforms doc.
Proof.
  intros N. unfold outcome, recorded, bgmConforms. rewrite (bgm_fresh doc N).
  cbn [fst snd errors]. rewrite <- strictEq_eq.
  assert (D : (exists found, callFindOpt (getOwn doc "Dtm") (codeIs "functionCode" "I-31")
                             = Normal found /\ truthy found = true)
              <-> exists entries issue,
                    getOwn doc "Dtm" = JArray entries
                    /\ firstWith "functionCode" "I-31" entries issue).
  { destruct (callFindOpt_cases "functionCode" "I-31" (getOwn doc "Dtm"))
      as [[Nd E] | [(entries & Ed & E) | (Nd & Ad & E)]]; rewrite E.
    - split.
      + intros (found & [= <-] & T). discriminate T.
      + intros (entries & issue & Ed & _). rewrite Ed in Nd. discriminate Nd.
    - split.
      + intros (found & Ff & T). exists entries, found. split; [exact Ed|].
        now apply arrayFind_Normal_truthy.
      + intros (entries' & issue & Ed' & Fw). rewrite Ed in Ed'. injection Ed' as <-.
        exists issue. split; [now apply arrayFind_first | now apply (firstWith_truthy _ _ _ _ Fw)].
    - split.
      + intros (found & Ff & _). discriminate Ff.
      + intros (entries & issue & Ed & _). rewrite Ed in Ad. discriminate Ad. }
  rewrite <- D.
  destruct (callFindOpt (getOwn doc "Dtm") (codeIs "functionCode" "I-31")) as [found|e].
  - destruct (truthy (getOwn doc "Bgm")),
      (truthy (getOwn (getOwn doc "Bgm") "DocumentIdentifier")),
      (strictEq (getOpt (getOpt (getOwn doc "Bgm") "DocumentType") "code") "I-11"),
      (truthy found) eqn:Tf; cbn; split;
      try (intros [_ A]; discriminate A);
      try (intros (A & B & C & _); discriminate);
      try (intros (_ & _ & _ & (f & [= <-] & T)); congruence).
    + intros _. repeat split. exists found. now split.
    + intros _. now split.
  - split; [intros [A _]; discriminate A|].
    intros (_ & _ & _ & (f & A & _)). discriminate A.
Qed.

Lemma bgm_returns doc :
  nullish doc = false ->
  outcome _validateBgmAndDtm doc = Normal tt
  <-> (nullish (getOwn doc "Dtm") = true
       \/ exists entries, getOwn doc "Dtm" = JArray entries
                          /\ ~ faultsBefore "functionCode" "I-31" entries).
Proof.
  intros N. unfold outcome. rewrite (bgm_fresh doc N). cbn [fst].
  destruct (callFindOpt_cases "functionCode" "I-31" (getOwn doc "Dtm"))
    as [[Nd E] | [(entries & Ed & E) | (Nd & Ad & E)]]; rewrite E.
  - split; [now left | reflexivity].
  - split.
    + intros H. right. exists entries. split; [exact Ed|].
      apply scan_returns. destruct (arrayFind _ entries) as [found|e]; [now exists found|].
      discriminate H.
    + intros [Nd | (entries' & Ed' & Hf)].
      * rewrite Ed in Nd. discriminate Nd.
      * rewrite Ed in Ed'. injection Ed' as <-.
        apply scan_returns in Hf. destruct Hf as [found ->]. reflexivity.
  - split; [discriminate|].
    intros [Nd' | (entries & Ed & _)]; [congruence|]. rewrite Ed in Ad. discriminate Ad.
Qed.

Lemma roleViolations_nil found required incomplete :
  roleViolations found required incomplete = []
  <-> truthy found = true /\ partnerComplete found = true.
Proof.
  unfold roleViolations. destruct (truthy found), (partnerComplete found);
    cbn; intuition discriminate.
Qed.

Lemma partners_accepts doc :
  nullish doc = false ->
  (outcome _validatePartners doc = Normal tt /\ recorded _validatePartners doc = [])
  <-> partnersConform doc.
Proof.
  intros N. unfold outcome, recorded, partnersConform.
  destruct (partners_cases doc) as [G|(entries & A & L)].
  - rewrite (partners_unusable doc N G). cbn [fst snd errors]. split.
    + intros [_ H]. discriminate H.
    + intros (entries & s & b & A & L & _). rewrite A in G. cbn in G.
      apply Nat.leb_le in G. lia.
  - rewrite (partners_usable doc entries N A L).
    destruct (arrayFind (codeIs "functionCode" "I-62") entries) as [s|e] eqn:Fs.
    + destruct (arrayFind (codeIs "functionCode" "I-61") entries) as [b|e] eqn:Fb.
      * cbn [fst snd errors]. split.
        -- intros [_ H]. apply app_eq_nil in H. destruct H as [Hs Hb].
           apply roleViolations_nil in Hs, Hb. destruct Hs as [Ts Cs], Hb as [Tb Cb].
           exists entries, s, b. repeat split; auto.
           ++ now apply arrayFind_Normal_truthy.
           ++ now apply arrayFind_Normal_truthy.
        -- intros (entries' & s' & b' & A' & _ & Ws & Cs & Wb & Cb).
           rewrite A in A'. injection A' as <-.
           pose proof (firstWith_truthy _ _ _ _ Ws) as Ts.
           pose proof (firstWith_truthy _ _ _ _ Wb) as Tb.
           rewrite (arrayFind_first _ _ _ _ Ws) in Fs. injection Fs as <-.
           rewrite (arrayFind_first _ _ _ _ Wb) in Fb. injection Fb as <-.
           split; [reflexivity|].
           unfold roleViolations. now rewrite Ts, Cs, Tb, Cb.
      * cbn [fst]. split; [intros [H _]; discriminate H|].
        intros (entries' & s' & b' & A' & _ & _ & _ & Wb & _).
        rewrite A in A'. injection A' as <-.
        rewrite (arrayFind_first _ _ _ _ Wb) in Fb. discriminate Fb.
    + cbn [fst]. split; [intros [H _]; discriminate H|].
      intros (entries' & s' & b' & A' & _ & Ws & _).
      rewrite A in A'. injection A' as <-.
      rewrite (arrayFind_first _ _ _ _ Ws) in Fs. discriminate Fs.
Qed.

Lemma partners_returns doc :
  nullish doc = false ->
  outcome _validatePartners doc = Normal tt
  <-> (forall entries,
         partnersOf doc = JArray entries -> 2 <= length entries ->
         ~ faultsBefore "functionCode" "I-62" entries
         /\ ~ faultsBefore "functionCode" "I-61" entries).
Proof.
  intros N. unfold outcome.
  destruct (partners_cases doc) as [G|(entries & A & L)].
  - rewrite (partners_unusable doc N G). cbn [fst]. split; [|reflexivity].
    intros _ entries A L. rewrite A in G. cbn in G. apply Nat.leb_le in G. lia.
  - rewrite (partners_usable doc entries N A L).
    split.
    + intros H entries' A' _. rewrite A in A'. injection A' as <-.
      rewrite <- !scan_returns.
      destruct (arrayFind (codeIs "functionCode" "I-62") entries) as [s|e];
        [|discriminate H].
      destruct (arrayFind (codeIs "functionCode" "I-61") entries) as [b|e];
        [|discriminate H].
      split; eexists; reflexivity.
    + intros H. destruct (H entries A L) as [H1 H2].
      apply scan_returns in H1, H2. destruct H1 as [s ->], H2 as [b ->]. reflexivity.
Qed.

Lemma violationsFrom_nil lines : forall index,
  Forall (fun line => nullish line = false) lines ->
  (violationsFrom index lines = [] <-> Forall validLine lines).
Proof.
  induction lines as [|l rest IH]; intros index F; cbn [violationsFrom].
  - split; [constructor | reflexivity].
  - inversion F as [|? ? Nl F']; subst. split.
    + intros H. apply app_eq_nil in H. destruct H as [Hl Hr].
      constructor; [|now apply (IH (S index))].
      unfold validLine. unfold lineViolations in Hl.
      destruct (itemMissing l), (quantityInvalid l), (unitPriceInvalid l);
        try discriminate Hl. now repeat split.
    + intros H. now apply (violationsFrom_valid (l :: rest) index).
Qed.

Lemma lines_accepts doc :
  nullish doc = false ->
  (outcome _validateLines doc = Normal tt /\ recorded _validateLines doc = [])
  <-> linesConform doc.
Proof.
  intros N. unfold outcome, recorded, linesConform.
  destruct (lines_cases doc) as [G|(lines & A & NE)].
  - rewrite (lines_unusable doc N G). cbn [fst snd errors]. split.
    + intros [_ H]. discriminate H.
    + intros (lines & A & NE & _). rewrite A in G.
      destruct lines; [congruence | discriminate G].
  - rewrite (lines_usable doc lines N A NE). cbn [fst snd errors]. split.
    + destruct (forallb (fun line => negb (nullish line)) lines) eqn:Fa;
        [|intros [H _]; discriminate H].
      apply all_readable in Fa. destruct (readable_all lines Fa) as [-> _].
      intros [_ H]. exists lines. repeat split; auto.
      now apply (violationsFrom_nil lines 0 Fa).
    + intros (lines' & A' & _ & V). rewrite A in A'. injection A' as <-.
      pose proof (validLine_readable lines V) as Fa.
      destruct (readable_all lines Fa) as [-> ->]. split; [reflexivity|].
      now apply violationsFrom_valid.
Qed.

Lemma lines_returns doc :
  nullish doc = false ->
  outcome _validateLines doc = Normal tt
  <-> (forall lines,
         linesOf doc = JArray lines -> Forall (fun line => nullish line = false) lines).
Proof.
  intros N. unfold outcome.
  destruct (lines_cases doc) as [G|(lines & A & NE)].
  - rewrite (lines_unusable doc N G). cbn [fst]. split; [|reflexivity].
    intros _ lines A. rewrite A in G. destruct lines; [constructor | discriminate G].
  - rewrite (lines_usable doc lines N A NE). cbn [fst]. split.
    + intros H lines' A'. rewrite A in A'. injection A' as <-.
      apply all_readable. destruct (forallb _ lines); [reflexivity | discriminate H].
    + intros H. specialize (H lines A). apply all_readable in H. now rewrite H.
Qed.

Lemma totals_accepts doc :
  nullish doc = false ->
  (outcome _validateTotals doc = Normal tt /\ recorded _validateTotals doc = [])
  <-> totalsConform doc.
Proof.
  intros N. unfold outcome, recorded, totalsConform.
  destruct (totals_cases doc) as [G|(amounts & A)].
  - rewrite (totals_unusable doc N G). cbn [fst snd errors]. split.
    + intros [_ H]. discriminate H.
    + intros (amounts & ht & ttc & A & _). rewrite A in G. discriminate G.
  - rewrite (totals_usable doc amounts N A).
    destruct (arrayFind (codeIs "amountTypeCode" "I-176") amounts) as [ht|e] eqn:Fh.
    + destruct (arrayFind (codeIs "amountTypeCode" "I-180") amounts) as [ttc|e] eqn:Ft.
      * cbn [fst snd errors]. split.
        -- intros [_ H].
           destruct (truthy ht) eqn:Th, (truthy ttc) eqn:Tt,
             (truthy (getOwn doc "InvoiceTax")),
             (strictEq (getOwn (getOwn doc "InvoiceTax") "TaxTypeCode") "I-1602") eqn:Cx;
             try discriminate H.
           apply strictEq_eq in Cx.
           exists amounts, ht, ttc. repeat split; auto.
           ++ now apply arrayFind_Normal_truthy.
           ++ now apply arrayFind_Normal_truthy.
        -- intros (amounts' & ht' & ttc' & A' & Wh & Wt & Tx & Cx).
           rewrite A in A'. injection A' as <-.
           pose proof (firstWith_truthy _ _ _ _ Wh) as Th.
           pose proof (firstWith_truthy _ _ _ _ Wt) as Tt.
           rewrite (arrayFind_first _ _ _ _ Wh) in Fh. injection Fh as <-.
           rewrite (arrayFind_first _ _ _ _ Wt) in Ft. injection Ft as <-.
           apply strictEq_eq in Cx.
           now rewrite Th, Tt, Tx, Cx.
      * cbn [fst]. split; [intros [H _]; discriminate H|].
        intros (amounts' & ht' & ttc' & A' & _ & Wt & _).
        rewrite A in A'. injection A' as <-.
        rewrite (arrayFind_first _ _ _ _ Wt) in Ft. discriminate Ft.
    + cbn [fst]. split; [intros [H _]; discriminate H|].
      intros (amounts' & ht' & ttc' & A' & Wh & _).
      rewrite A in A'. injection A' as <-.
      rewrite (arrayFind_first _ _ _ _ Wh) in Fh. discriminate Fh.
Qed.

Lemma totals_returns doc :
  nullish doc = false ->
  outcome _validateTotals doc = Normal tt
  <-> (forall amounts,
         amountsOf doc = JArray amounts ->
         ~ faultsBefore "amountTypeCode" "I-176" amounts
         /\ ~ faultsBefore "amountTypeCode" "I-180" amounts).
Proof.
  intros N. unfold outcome.
  destruct (totals_cases doc) as [G|(amounts & A)].
  - rewrite (totals_unusable doc N G). cbn [fst]. split; [|reflexivity].
    intros _ amounts A. rewrite A in G. discriminate G.
  - rewrite (totals_usable doc amounts N A). split.
    + intros H amounts' A'. rewrite A in A'. injection A' as <-.
      rewrite <- !scan_returns.
      destruct (arrayFind (codeIs "amountTypeCode" "I-176") amounts) as [s|e];
        [|discriminate H].
      destruct (arrayFind (codeIs "amountTypeCode" "I-180") amounts) as [b|e];
        [|discriminate H].
      split; eexists; reflexivity.
    + intros H. destruct (H amounts A) as [H1 H2].
      apply scan_returns in H1, H2. destruct H1 as [s ->], H2 as [b ->]. reflexivity.
Qed.

Section Verdicts.
Context {engine : Engine}.

(** X11.  [validate] returns [isValid = true] with no errors exactly on
    the conforming documents: the envelope constants hold, both party
    identifiers are present and have the identifier format, the document
    identifier is present with type code ["I-11"], the date entries hold
    an issue date, the partner collection has at least two entries with a
    complete first supplier and a complete first buyer, the line
    collection is non-empty with valid lines only, both totals are
    present and the tax type code is ["I-1602"]. *)
Theorem validate_accepts_iff_conforms this :
  (fst (validate this) = Normal {| Report.isValid := true; Report.errors := [] |}
   <-> Conforms (invoice this))
  /\ (forall report,
        fst (validate this) = Normal report ->
        (Report.isValid report = true <-> Conforms (invoice this))).
Proof.
  assert (A : fst (validate this)
              = Normal {| Report.isValid := true; Report.errors := [] |}
              <-> Conforms (invoice this)).
  { split.
    - intros R.
      destruct (report_groups _ _ R) as (N & O1 & O2 & O3 & O4 & O5 & O6 & E).
      injection E as _ E. symmetry in E.
      apply app_eq_nil in E. destruct E as [E1 E].
      apply app_eq_nil in E. destruct E as [E2 E].
      apply app_eq_nil in E. destruct E as [E3 E].
      apply app_eq_nil in E. destruct E as [E4 E].
      apply app_eq_nil in E. destruct E as [E5 E6].
      split; [exact N|].
      split; [now apply (root_accepts _ N)|].
      split; [now apply (header_accepts _ N)|].
      split; [now apply (bgm_accepts _ N)|].
      split; [now apply (partners_accepts _ N)|].
      split; [now apply (lines_accepts _ N) | now apply (totals_accepts _ N)].
    - intros (N & C1 & C2 & C3 & C4 & C5 & C6).
      apply (root_accepts _ N) in C1. apply (header_accepts _ N) in C2.
      apply (bgm_accepts _ N) in C3. apply (partners_accepts _ N) in C4.
      apply (lines_accepts _ N) in C5. apply (totals_accepts _ N) in C6.
      destruct C1 as [O1 E1], C2 as [O2 E2], C3 as [O3 E3], C4 as [O4 E4],
        C5 as [O5 E5], C6 as [O6 E6].
      rewrite (groups_report this O1 O2 O3 O4 O5 O6), E1, E2, E3, E4, E5, E6.
      reflexivity. }
  split; [exact A|].
  intros report R. rewrite <- A, R.
  destruct (report_groups _ _ R) as (_ & _ & _ & _ & _ & _ & _ & E).
  rewrite E. unfold reportOf. cbn [Report.isValid].
  destruct (_ ++ _)%list; cbn; split; congruence.
Qed.

(** X12.  [validate] returns a report exactly on the documents on which
    no group meets a value it cannot read; on every other document it
    throws a TypeError. *)
Theorem validate_returns_iff_fault_free this :
  ((exists report, fst (validate this) = Normal report) <-> FaultFree (invoice this))
  /\ (fst (validate this) = Throw TypeError <-> ~ FaultFree (invoice this)).
Proof.
  assert (A : (exists report, fst (validate this) = Normal report)
              <-> FaultFree (invoice this)).
  { split.
    - intros [report R].
      destruct (report_groups _ _ R) as (N & O1 & O2 & O3 & O4 & O5 & O6 & _).
      split; [exact N|].
      split; [now apply (header_returns _ N)|].
      split; [now apply (bgm_returns _ N)|].
      split; [now apply (partners_returns _ N)|].
      split; [now apply (lines_returns _ N) | now apply (totals_returns _ N)].
    - intros (N & C2 & C3 & C4 & C5 & C6).
      apply (header_returns _ N) in C2. apply (bgm_returns _ N) in C3.
      apply (partners_returns _ N) in C4. apply (lines_returns _ N) in C5.
      apply (totals_returns _ N) in C6.
      assert (O1 : outcome _validateRoot (invoice this) = Normal tt).
      { unfold outcome. now rewrite (root_fresh _ N). }
      eexists. apply (groups_report this O1 C2 C3 C4 C5 C6). }
  split; [exact A|].
  rewrite <- A. destruct (fst (validate this)) as [report|[]]; split.
  - discriminate.
  - intros H. elim H. now exists report.
  - intros _ [report R]. discriminate R.
  - reflexivity.
Qed.

End Verdicts.

Lemma validate_accepts_iff_conforms_witness :
  Conforms (engine := sampleEngine) validInvoiceData.
Proof.
  apply (proj1 (validate_accepts_iff_conforms (engine := sampleEngine)
                  (new_TEIFValidator validInvoiceData))).
  vm_compute. reflexivity.
Defined.

Lemma validate_returns_iff_fault_free_witness :
  FaultFree (engine := sampleEngine) emptyDocument
  /\ ~ FaultFree (engine := sampleEngine) dtmObjectDocument.
Proof.
  split.
  - apply (proj1 (validate_returns_iff_fault_free (engine := sampleEngine)
                    (new_TEIFValidator emptyDocument))).
    eexists. vm_compute. reflexivity.
  - apply (proj2 (validate_returns_iff_fault_free (engine := sampleEngine)
                    (new_TEIFValidator dtmObjectDocument))).
    vm_compute. reflexivity.
Defined.

Lemma length_string_append (a b : string) :
  String.length (a ++ b) = String.length a + String.length b.
Proof. induction a as [|c a IH]; cbn; [reflexivity | now rewrite IH]. Qed.

Lemma length_string_of_list_ascii (l : list ascii) :
  String.length (string_of_list_ascii l) = length l.
Proof. induction l as [|c l IH]; cbn; [reflexivity | now rewrite IH]. Qed.

Lemma TaxIdFormat_length s : TaxIdFormat s -> String.length s = 16.
Proof.
  intros (d & a & b & c & e & -> & Ld & _ & _ & _ & _ & Le & _).
  rewrite length_string_of_list_ascii, !length_app, Ld, Le. reflexivity.
Qed.

Lemma length_zero_empty (s : string) : String.length s = 0 -> s = "".
Proof. destruct s; [reflexivity | discriminate]. Qed.

(** X13.  The identifier pattern matches whole strings only: a string it
    accepts has exactly 16 characters, and no string that carries an
    accepted identifier with anything in front of it or behind it is
    accepted. *)
Theorem taxIdRegex_matches_whole_string s :
  test taxIdRegex s = true ->
  String.length s = 16
  /\ forall before after,
       test taxIdRegex (before ++ s ++ after) = true -> before = "" /\ after = "".
Proof.
  intros H. apply taxIdRegex_matches_format in H.
  pose proof (TaxIdFormat_length s H) as L. split; [exact L|].
  intros before after H'. apply taxIdRegex_matches_format in H'.
  apply TaxIdFormat_length in H'. rewrite !length_string_append, L in H'.
  split; apply length_zero_empty; lia.
Qed.

Lemma taxIdRegex_matches_whole_string_witness :
  String.length "1234567A/B/M/000" = 16
  /\ forall before after,
       test taxIdRegex (before ++ "1234567A/B/M/000" ++ after) = true ->
       before = "" /\ after = "".
Proof.
  apply (taxIdRegex_matches_whole_string "1234567A/B/M/000"). reflexivity.
Defined.

Section LinePositions.
Context {engine : Engine}.

Lemma report_line_messages this report lines :
  fst (validate this) = Normal report ->
  linesOf (invoice this) = JArray lines -> lines <> [] ->
  filter (taggedb ["Lines: "; "Line "]) (Report.errors report) = violationsFrom 0 lines.
Proof.
  intros R A NE.
  destruct (report_groups _ _ R) as (N & _ & _ & _ & _ & O & _).
  destruct (report_by_tags _ _ R) as (_ & _ & _ & _ & F & _).
  rewrite F. revert O. unfold outcome, recorded. rewrite (lines_usable _ lines N A NE).
  cbn [fst snd errors].
  destruct (forallb (fun line => negb (nullish line)) lines) eqn:Fa;
    [|intros O; discriminate O].
  intros _. apply all_readable in Fa. now destruct (readable_all lines Fa) as [-> _].
Qed.

(** X14.  A per-line message in a returned report names the position of
    a line that exists: positions run from 1 to the number of lines. *)
Theorem line_messages_name_existing_lines this report lines position :
  fst (validate this) = Normal report ->
  linesOf (invoice this) = JArray lines -> lines <> [] ->
  In (Msg.lineItem position) (Report.errors report)
  \/ In (Msg.lineQuantity position) (Report.errors report)
  \/ In (Msg.lineUnitPrice position) (Report.errors report) ->
  1 <= position <= length lines.
Proof.
  intros R A NE H.
  pose proof (report_line_messages this report lines R A NE) as F.
  assert (P : exists j line, nth_error lines j = Some line /\ position = 0 + j + 1).
  { destruct H as [H|[H|H]].
    - rewrite (in_by_tag _ _ _ (Msg.lineItem position) F eq_refl) in H. apply In_violationsFrom in H.
      destruct H as (j & line & Hj & H). apply In_lineViolations_item in H.
      exists j, line. now split.
    - rewrite (in_by_tag _ _ _ (Msg.lineQuantity position) F eq_refl) in H. apply In_violationsFrom in H.
      destruct H as (j & line & Hj & H). apply In_lineViolations_quantity in H.
      exists j, line. now split.
    - rewrite (in_by_tag _ _ _ (Msg.lineUnitPrice position) F eq_refl) in H. apply In_violationsFrom in H.
      destruct H as (j & line & Hj & H). apply In_lineViolations_unitPrice in H.
      exists j, line. now split. }
  destruct P as (j & line & Hj & ->).
  assert (j < length lines) by (apply nth_error_Some; congruence). lia.
Qed.

End LinePositions.

Lemma root_violations_in_report_witness :
  (In Msg.version emptyDocumentErrors <-> getOwn emptyDocument "version" <> JString "2.0")
  /\ (In Msg.agency emptyDocumentErrors
      <-> getOwn emptyDocument "controlingAgency" <> JString "TTN").
Proof.
  apply (root_violations_in_report (engine := sampleEngine)
           (new_TEIFValidator emptyDocument)
           {| Report.isValid := false; Report.errors := emptyDocumentErrors |}).
  vm_compute. reflexivity.
Defined.

Lemma header_violations_in_report_witness :
  (In Msg.headerMissing emptyDocumentErrors
   <-> truthy (getOwn emptyDocument "InvoiceHeader") = false)
  /\ (truthy (getOwn emptyDocument "InvoiceHeader") = false ->
      filter (taggedb ["Structure: "; "Header: "]) emptyDocumentErrors
      = [Msg.headerMissing]).
Proof.
  pose proof (header_violations_in_report (engine := sampleEngine)
                (new_TEIFValidator emptyDocument)
                {| Report.isValid := false; Report.errors := emptyDocumentErrors |}) as T.
  destruct T as (A & B & _); [vm_compute; reflexivity|].
  split; [exact A | exact B].
Defined.

Lemma bgm_violations_in_report_witness :
  (In Msg.documentIdentifier emptyDocumentErrors
   <-> truthy (getOwn emptyDocument "Bgm") = false
       \/ truthy (getOwn (getOwn emptyDocument "Bgm") "DocumentIdentifier") = false)
  /\ (In Msg.issueDate emptyDocumentErrors
      <-> nullish (getOwn emptyDocument "Dtm") = true
          \/ exists entries, getOwn emptyDocument "Dtm" = JArray entries
                             /\ noneWith "functionCode" "I-31" entries).
Proof.
  pose proof (bgm_violations_in_report (engine := sampleEngine)
                (new_TEIFValidator emptyDocument)
                {| Report.isValid := false; Report.errors := emptyDocumentErrors |}) as T.
  destruct T as (A & _ & C); [vm_compute; reflexivity|].
  split; [exact A | exact C].
Defined.

Lemma partner_violations_in_report_witness :
  In Msg.supplierIncomplete [Msg.supplierIncomplete]
  <-> exists supplier,
        firstWith "functionCode" "I-62" [namelessSupplier; supplierEntry; buyerEntry] supplier
        /\ partnerComplete supplier = false.
Proof.
  pose proof (partner_violations_in_report (engine := sampleEngine)
                (new_TEIFValidator duplicateSupplierInvoice)
                {| Report.isValid := false; Report.errors := [Msg.supplierIncomplete] |}) as T.
  destruct T as (_ & T); [vm_compute; reflexivity|].
  destruct (T [namelessSupplier; supplierEntry; buyerEntry]) as (_ & B & _);
    [reflexivity | cbn; lia | exact B].
Defined.

Lemma line_collection_in_report_witness :
  Forall (fun line => nullish line = false)
         [lineEntry "PRD-001" "Laptop" 2 1200 2400; negativePriceItem]
  /\ filter (taggedb ["Lines: "; "Line "]) [Msg.lineUnitPrice 2]
     = violationsFrom 0 [lineEntry "PRD-001" "Laptop" 2 1200 2400; negativePriceItem].
Proof.
  pose proof (line_collection_in_report (engine := sampleEngine)
                (new_TEIFValidator negativePriceInvoice)
                {| Report.isValid := false; Report.errors := [Msg.lineUnitPrice 2] |}) as T.
  destruct T as (_ & _ & T); [vm_compute; reflexivity|].
  apply (T [lineEntry "PRD-001" "Laptop" 2 1200 2400; negativePriceItem]);
    [reflexivity | discriminate].
Defined.

Lemma unreadable_line_faults_witness :
  _validateLines (new_TEIFValidator nullLineInvoice)
  = (Throw TypeError, {| invoice := nullLineInvoice; errors := [Msg.lineUnitPrice 1] |})
  /\ forall report,
       fst (validate (engine := sampleEngine) (new_TEIFValidator nullLineInvoice))
       <> Normal report.
Proof.
  apply (unreadable_line_faults (engine := sampleEngine)
           (new_TEIFValidator nullLineInvoice) [negativePriceItem; JNull; nanLine]).
  - reflexivity.
  - reflexivity.
  - right. now left.
Defined.

Lemma totals_violations_in_report_witness :
  (In Msg.amounts emptyDocumentErrors <-> isArray (amountsOf emptyDocument) = false)
  /\ (isArray (amountsOf emptyDocument) = false ->
      filter (taggedb ["Totals: "; "Tax: "]) emptyDocumentErrors = [Msg.amounts]).
Proof.
  pose proof (totals_violations_in_report (engine := sampleEngine)
                (new_TEIFValidator emptyDocument)
                {| Report.isValid := false; Report.errors := emptyDocumentErrors |}) as T.
  destruct T as (A & B & _); [vm_compute; reflexivity|].
  split; [exact A | exact B].
Defined.

Lemma line_messages_name_existing_lines_witness :
  In (Msg.lineUnitPrice 2) [Msg.lineUnitPrice 2] /\ 1 <= 2 <= 2.
Proof.
  split; [now left|].
  apply (line_messages_name_existing_lines (engine := sampleEngine)
           (new_TEIFValidator negativePriceInvoice)
           {| Report.isValid := false; Report.errors := [Msg.lineUnitPrice 2] |}
           [lineEntry "PRD-001" "Laptop" 2 1200 2400; negativePriceItem] 2).
  - vm_compute. reflexivity.
  - reflexivity.
  - discriminate.
  - right; right. now left.
Defined.
